(** * swebench.harness.docker_utils

    A shallow embedding of [src/swebench/harness/docker_utils.py] and the
    properties of its helpers: the cache-tier predicate [should_remove],
    the session-id generator, the argument check of [copy_to_container],
    the image and container cleanup routines, and the timeout-bound
    executor.

    Part I holds the embedding, Parts II and III the properties. *)

From Stdlib Require Import ZArith String Ascii List Lia Bool.
From stdpp Require Import base decidable gmap strings pretty.

Import ListNotations.
Local Open Scope string_scope.
Local Open Scope list_scope.

(** * Part I: the embedding *)

(** ** Python values shared by the helpers *)

(** An exception object: its class and [str(e)]. Every exception here is
    an instance of [Exception], which is what the [except] clauses of the
    module catch. *)
Record exn := Exn { exn_class : string; exn_msg : string }.

Definition ValueError (msg : string) : exn := Exn "ValueError" msg.
Definition TimeoutError (msg : string) : exn := Exn "TimeoutError" msg.
Definition KeyError (key : string) : exn := Exn "KeyError" ("'" +:+ key +:+ "'").
Definition IndexError (msg : string) : exn := Exn "IndexError" msg.
Definition OverflowError (msg : string) : exn := Exn "OverflowError" msg.

(** What a call does: it returns a value or raises. *)
Inductive outcome (A : Type) : Type :=
| Returns (a : A)
| Raises (e : exn).
Arguments Returns {A} a.
Arguments Raises {A} e.

(** [str.startswith]. *)
Definition startswith (s p : string) : bool := String.prefix p s.

(** The line feed of the f-strings. *)
Definition LF : string := String (ascii_of_nat 10) "".

(** [needle in haystack] on strings, as a proposition. *)
Definition contains (haystack needle : string) : Prop :=
  exists before after, haystack = before +:+ needle +:+ after.

(** ** should_remove (lines 210-224) *)

(** The set literals of the source are kept as finite sets, and
    [prior_images] is the set the caller passes. *)
Definition should_remove (image_name cache : string) (clean : bool)
    (prior_images : gset string) : bool :=
  let existed_before := bool_decide (image_name ∈ prior_images) in
  if startswith image_name "sweb.base" then
    if bool_decide (cache ∈ ({["none"]} : gset string))
       && (clean || negb existed_before)
    then true else false
  else if startswith image_name "sweb.env" then
    if bool_decide (cache ∈ ({["none"; "base"]} : gset string))
       && (clean || negb existed_before)
    then true else false
  else if startswith image_name "sweb.eval" then
    if bool_decide (cache ∈ ({["none"; "base"; "env"]} : gset string))
       && (clean || negb existed_before)
    then true else false
  else false.

(** [s] starts with [p]: [p] followed by something. *)
Definition has_prefix (s p : string) : Prop := exists rest, s = p +:+ rest.

(** The tier of the image is within the removal set of the cache level. *)
Definition tier_eligible (image_name cache : string) : Prop :=
  (has_prefix image_name "sweb.base" /\ cache = "none")
  \/ (has_prefix image_name "sweb.env" /\ (cache = "none" \/ cache = "base"))
  \/ (has_prefix image_name "sweb.eval"
      /\ (cache = "none" \/ cache = "base" \/ cache = "env")).

(** ** get_session_id (lines 17-47) *)

(** The argument [length] as a Python value. [PyInt n] stands for every
    instance of [int] with value [n]; [bool] is a subclass of [int], so
    [True] and [False] are [PyInt 1] and [PyInt 0]. The other constructors
    are values for which [isinstance(length, int)] is false. *)
Inductive pyval :=
| PyInt (n : Z)
| PyFloat (mantissa exponent : Z)
| PyStr (s : string)
| PyNone.

Definition isinstance_int (v : pyval) : bool :=
  match v with PyInt _ => true | _ => false end.

(** [length <= 0], evaluated only on instances of [int]. *)
Definition le_zero (v : pyval) : bool :=
  match v with PyInt n => (n <=? 0)%Z | _ => false end.

(** [range(length)] has [max(length, 0)] elements. *)
Definition range_len (v : pyval) : nat :=
  match v with PyInt n => Z.to_nat n | _ => 0 end.

(** The constants of Python's [string] module. *)
Definition ascii_uppercase : string := "ABCDEFGHIJKLMNOPQRSTUVWXYZ".
Definition ascii_lowercase : string := "abcdefghijklmnopqrstuvwxyz".
Definition digits : string := "0123456789".

(** [secrets.SystemRandom]: the operating system's entropy source. The
    seed handed to its constructor (the hash of the timestamp) is ignored
    by it, so the generator is the source alone. [randbelow k n] is the
    [k]-th draw below [n]; the class promises a value in [range(n)]. *)
Record SystemRandom := {
  randbelow : nat -> nat -> nat;
  randbelow_lt : forall k n, 0 < n -> randbelow k n < n
}.

(** [random_gen.choice(seq)]: [seq[randbelow(len(seq))]], and an
    [IndexError] on an empty sequence. *)
Definition choice (random_gen : SystemRandom) (k : nat) (seq : string)
    : outcome ascii :=
  match String.get (randbelow random_gen k (String.length seq)) seq with
  | Some c => Returns c
  | None => Raises (IndexError "Cannot choose from an empty sequence")
  end.

(** ["".join(random_gen.choice(characters) for _ in range(n))], the
    draws numbered from [k]. *)
Fixpoint join_choices (random_gen : SystemRandom) (characters : string)
    (k n : nat) : outcome string :=
  match n with
  | 0 => Returns ""
  | S n' =>
      match choice random_gen k characters with
      | Raises e => Raises e
      | Returns c =>
          match join_choices random_gen characters (S k) n' with
          | Raises e => Raises e
          | Returns s => Returns (String c s)
          end
      end
  end.

Definition get_session_id (random_gen : SystemRandom) (length : pyval)
    : outcome string :=
  if negb (isinstance_int length) || le_zero length then
    Raises (ValueError "Length must be a positive integer.")
  else
    let characters := "" in
    let characters := characters +:+ ascii_uppercase in
    let characters := characters +:+ ascii_lowercase in
    let characters := characters +:+ digits in
    if String.eqb characters "" then
      Raises (ValueError
        "At least one character set (uppercase, lowercase, digits) must be enabled.")
    else
      join_choices random_gen characters 0 (range_len length).

(** The 62-character alphanumeric alphabet, by character code. *)
Definition alphanumeric (c : ascii) : bool :=
  let n := nat_of_ascii c in
  ((65 <=? n)%nat && (n <=? 90)%nat) || ((97 <=? n)%nat && (n <=? 122)%nat)
  || ((48 <=? n)%nat && (n <=? 57)%nat).

(** A positive integer, as a Python value. *)
Definition positive_integer (v : pyval) : Prop :=
  exists n : Z, v = PyInt n /\ (0 < n)%Z.

(** A generator for running the model: the [k]-th draw is [k mod n]. *)
Definition counting_random : SystemRandom :=
  {| randbelow := fun k n => k mod n;
     randbelow_lt := fun k n Hn =>
       Nat.mod_upper_bound k n (proj2 (Nat.neq_0_lt_0 n) Hn) |}.

(** ** The outside world: the engine, the local files, the console *)

(** A container handle: the attributes the module reads. *)
Record Container := { id : string; name : string }.

(** The calls the module makes to the engine client, to the local file
    system and to the operating system. *)
Inductive call :=
| TarOpen (tar_path : string)
| TarAdd (src arcname : string)
| FileRead (path : string)
| Unlink (path : string)
| ExecRun (container_id cmd : string)
| PutArchive (container_id path data : string)
| ImagesList (all : bool)
| ImagesRemove (image_id : string) (force : bool)
| ContainerStop (container_id : string) (timeout : Z)
| InspectContainer (container_id : string)
| OsKill (pid sig : Z)
| ContainerRemove (container_id : string) (force : bool).

(** A line of output: printed on the console, or handed to the [info]
    method of a logger object. *)
Inductive line :=
| Printed (s : string)
| LoggerInfo (logger_name : string) (s : string).

(** What a run has done so far: the calls it made, in order, and the
    lines it wrote. *)
Record world := World { calls : list call; output : list line }.

Definition untouched : world := World [] [].

(** How the outside answers: which calls raise (given the calls made
    before), what a file holds, what the engine reports about a
    container, and the text [traceback.format_exc()] gives in the handler
    of an exception. *)
Record environment := {
  fails : list call -> call -> option exn;
  read_bytes : list call -> string -> string;
  container_info : list call -> string -> gmap string (gmap string Z);
  format_exc : exn -> string
}.

(** Computations that change the world and may raise. *)
Definition M (A : Type) : Type := world -> world * outcome A.

#[global] Instance M_ret : MRet M := fun A a w => (w, Returns a).
#[global] Instance M_bind : MBind M := fun A B f m w =>
  match m w with
  | (w', Returns a) => f a w'
  | (w', Raises e) => (w', Raises e)
  end.

Definition raise {A : Type} (e : exn) : M A := fun w => (w, Raises e).

(** [try: body / except Exception as e: handler e]. *)
Definition try_except {A : Type} (body : M A) (handler : exn -> M A) : M A :=
  fun w =>
    match body w with
    | (w', Raises e) => handler e w'
    | r => r
    end.

(** An external call: it is recorded, then it returns or raises. *)
Definition perform (env : environment) (c : call) : M unit :=
  fun w =>
    let w' := World (calls w ++ [c]) (output w) in
    match fails env (calls w) c with
    | Some e => (w', Raises e)
    | None => (w', Returns tt)
    end.

Definition print (s : string) : M unit :=
  fun w => (World (calls w) (output w ++ [Printed s]), Returns tt).

(** [lambda x: None]. *)
Definition discard (s : string) : M unit := mret tt.

(** [logger.info]. *)
Definition logger_info (logger_name : string) (s : string) : M unit :=
  fun w => (World (calls w) (output w ++ [LoggerInfo logger_name s]), Returns tt).

(** The [logger] argument of the cleanup routines: [None], the string
    ["quiet"], or a logger object. *)
Inductive logger_arg :=
| LoggerNone
| LoggerQuiet
| LoggerObject (logger_name : string).

(** The shared preamble of [cleanup_image] and [cleanup_container]
    (lines 82-93 and 113-124): [(log_info, log_error, raise_error)]. *)
Definition logging_mode (logger : logger_arg)
    : (string -> M unit) * (string -> M unit) * bool :=
  match logger with
  | LoggerNone => (print, print, true)
  | LoggerQuiet => (discard, discard, true)
  | LoggerObject l => (logger_info l, logger_info l, false)
  end.

(** ** copy_to_container (lines 50-72) *)

(** [posixpath.dirname]: [head = p[:p.rfind("/") + 1]], with the trailing
    slashes stripped unless [head] is slashes only. *)
Fixpoint head_upto_sep (p : string) : string :=
  match p with
  | "" => ""
  | String c p' =>
      match head_upto_sep p' with
      | "" => if Ascii.eqb c "/" then "/" else ""
      | h => String c h
      end
  end.

Fixpoint all_sep (s : string) : bool :=
  match s with
  | "" => true
  | String c s' => Ascii.eqb c "/" && all_sep s'
  end.

Fixpoint rstrip_sep (s : string) : string :=
  match s with
  | "" => ""
  | String c s' =>
      match rstrip_sep s' with
      | "" => if Ascii.eqb c "/" then "" else String c ""
      | r => String c r
      end
  end.

Definition dirname (p : string) : string :=
  let head := head_upto_sep p in
  if negb (String.eqb head "") && negb (all_sep head)
  then rstrip_sep head else head.

(** The [pathlib] operations used on [src] and [dst]; a path is held as
    its string. [with_suffix] raises on a path with an empty name. *)
Record pathlib := {
  with_suffix : string -> string -> outcome string;
  path_name : string -> string;
  parent : string -> string
}.

Definition lift {A : Type} (o : outcome A) : M A := fun w => (w, o).

(** [open(path, "rb")] and [read()]. *)
Definition read_file (env : environment) (path : string) : M string :=
  fun w =>
    let w' := World (calls w ++ [FileRead path]) (output w) in
    match fails env (calls w) (FileRead path) with
    | Some e => (w', Raises e)
    | None => (w', Returns (read_bytes env (calls w) path))
    end.

Definition copy_to_container (env : environment) (pl : pathlib)
    (container : Container) (src dst : string) : M unit :=
  if String.eqb (dirname dst) "" then
    raise (ValueError
      ("Destination path parent directory cannot be empty!, dst: " +:+ dst))
  else
    tar_path ← lift (with_suffix pl src ".tar");
    perform env (TarOpen tar_path);;
    perform env (TarAdd src (path_name pl src));;
    data ← read_file env tar_path;
    perform env (ExecRun (id container) ("mkdir -p " +:+ parent pl dst));;
    perform env (PutArchive (id container) (dirname dst) data);;
    perform env (ExecRun (id container)
      ("tar -xf " +:+ dst +:+ ".tar -C " +:+ parent pl dst));;
    perform env (Unlink tar_path);;
    perform env (ExecRun (id container) ("rm " +:+ dst +:+ ".tar")).

(** ** cleanup_image (lines 81-104) *)

Definition cleanup_image (env : environment) (image_id : string)
    (rm_image : bool) (logger : logger_arg) : M unit :=
  let '(log_info, log_error, raise_error) := logging_mode logger in
  if rm_image then
    try_except
      (log_info ("Attempting to remove image " +:+ image_id +:+ "...");;
       perform env (ImagesRemove image_id true);;
       log_info ("Image " +:+ image_id +:+ " removed."))
      (fun e =>
         if raise_error then raise e
         else log_error ("Failed to remove image " +:+ image_id +:+ ": "
                         +:+ exn_msg e +:+ LF +:+ format_exc env e))
  else mret tt.

(** ** cleanup_container (lines 107-161) *)

Definition SIGKILL : Z := 9.

(** [client.api.inspect_container(container_id)]. *)
Definition inspect_container (env : environment) (container_id : string)
    : M (gmap string (gmap string Z)) :=
  fun w =>
    let w' := World (calls w ++ [InspectContainer container_id]) (output w) in
    match fails env (calls w) (InspectContainer container_id) with
    | Some e => (w', Raises e)
    | None => (w', Returns (container_info env (calls w) container_id))
    end.

(** [d[key]] on a dictionary. *)
Definition getitem {V : Type} (d : gmap string V) (key : string) : M V :=
  match d !! key with
  | Some v => mret v
  | None => raise (KeyError key)
  end.

(** The body of the inner [try] (lines 135-143): find the process of the
    container and kill it. *)
Definition kill_fallback (env : environment) (container : Container)
    (log_info log_error : string -> M unit) : M unit :=
  container_info ← inspect_container env (id container);
  state ← getitem container_info "State";
  let pid := default 0%Z (state !! "Pid") in
  if (0 <? pid)%Z then
    log_info ("Forcefully killing container " +:+ name container
              +:+ " with PID " +:+ pretty pid +:+ "...");;
    perform env (OsKill pid SIGKILL)
  else
    log_error ("PID for container " +:+ name container +:+ ": "
               +:+ pretty pid +:+ " - not killing.").

(** The first [try] statement (lines 126-150): stop the container, and on
    failure fall back to killing it. *)
Definition stop_or_kill (env : environment) (container : Container)
    (logger : logger_arg) : M unit :=
  let '(log_info, log_error, raise_error) := logging_mode logger in
  try_except
    (log_info ("Attempting to stop container " +:+ name container +:+ "...");;
     perform env (ContainerStop (id container) 15))
    (fun e =>
       log_error ("Failed to stop container " +:+ name container +:+ ": "
                  +:+ exn_msg e +:+ ". Trying to forcefully kill...");;
       try_except
         (kill_fallback env container log_info log_error)
         (fun e2 =>
            if raise_error then raise e2
            else log_error ("Failed to forcefully kill container "
                            +:+ name container +:+ ": " +:+ exn_msg e2
                            +:+ LF +:+ format_exc env e2))).

(** The second [try] statement (lines 151-161): force-remove the
    container. *)
Definition force_remove (env : environment) (container : Container)
    (logger : logger_arg) : M unit :=
  let '(log_info, log_error, raise_error) := logging_mode logger in
  try_except
    (log_info ("Attempting to remove container " +:+ name container +:+ "...");;
     perform env (ContainerRemove (id container) true);;
     log_info ("Container " +:+ name container +:+ " removed."))
    (fun e =>
       if raise_error then raise e
       else log_error ("Failed to remove container " +:+ name container
                       +:+ ": " +:+ exn_msg e +:+ LF +:+ format_exc env e)).

(** The handle is [None] or a container object; past the guard of line
    108 it is an object, so the [if container:] of line 127 holds. *)
Definition cleanup_container (env : environment)
    (container : option Container) (logger : logger_arg) : M unit :=
  match container with
  | None => mret tt
  | Some container =>
      stop_or_kill env container logger;;
      force_remove env container logger
  end.

(** The run from [w] to [w'] ends with the force-removal of [container]. *)
Definition attempts_removal (container : Container) (w w' : world) : Prop :=
  exists before : list call,
    calls w' = calls w ++ before ++ [ContainerRemove (id container) true].

(** The run from [w] to [w'] makes no removal call for [container]. *)
Definition skips_removal (container : Container) (w w' : world) : Prop :=
  exists made : list call,
    calls w' = calls w ++ made
    /\ ~ In (ContainerRemove (id container) true) made.

(** Some line printed on the console contains [text]. *)
Definition printed (w : world) (text : string) : Prop :=
  exists s, In (Printed s) (output w) /\ contains s text.

(** [needle in haystack], computed. *)
Fixpoint substringb (needle haystack : string) : bool :=
  String.prefix needle haystack
  || match haystack with
     | "" => false
     | String _ rest => substringb needle rest
     end.

(** ** exec_run_with_timeout (lines 164-187) *)

(** The worker thread and its caller share three variables. The caller
    waits in [thread.join(timeout)] and then reads them, one statement at
    a time, while the worker may still be running: the model takes the
    progress of the worker at each of these reads as given. An exception
    object is truthy, so [if exception:] tests that one is recorded. *)

(** The two engine calls of the worker, [container.client.api.exec_create]
    and [exec_start], with what they do for the command at hand. *)
Record exec_api := {
  exec_create : string -> string -> outcome (gmap string string);
  exec_start : string -> outcome string
}.

(** The variables [run_command] shares with its caller ([nonlocal]). *)
Record locals := Locals {
  exec_result : option string;
  exec_id : option string;
  exception : option exn
}.

(** Where the worker thread stands: before [exec_create], before
    [exec_start], past the body of [run_command], or ended. *)
Inductive thread_pc :=
| AtCreate
| AtStart (i : string)
| Returning
| Terminated.

Record thread := Thread { pc : thread_pc; vars : locals }.

(** [thread.start()]: the three variables are [None]. *)
Definition started : thread := Thread AtCreate (Locals None None None).

(** [thread.is_alive()]. *)
Definition is_alive (t : thread) : bool :=
  match pc t with Terminated => false | _ => true end.

(** One step of [run_command]: a statement of its [try] block with its
    assignment, an exception going to the handler's assignment. *)
Definition run_command (api : exec_api) (container : Container)
    (cmd : string) (t : thread) : thread :=
  let v := vars t in
  match pc t with
  | AtCreate =>
      match exec_create api (id container) cmd with
      | Returns d =>
          match d !! "Id" with
          | Some i => Thread (AtStart i) (Locals (exec_result v) (Some i) (exception v))
          | None => Thread Returning
                      (Locals (exec_result v) (exec_id v) (Some (KeyError "Id")))
          end
      | Raises e => Thread Returning (Locals (exec_result v) (exec_id v) (Some e))
      end
  | AtStart i =>
      match exec_start api i with
      | Returns r => Thread Returning (Locals (Some r) (exec_id v) (exception v))
      | Raises e => Thread Returning (Locals (exec_result v) (exec_id v) (Some e))
      end
  | Returning => Thread Terminated v
  | Terminated => t
  end.

(** The worker after [n] of its steps. *)
Fixpoint worker_after (api : exec_api) (container : Container)
    (cmd : string) (n : nat) : thread :=
  match n with
  | 0 => started
  | S n' => run_command api container cmd (worker_after api container cmd n')
  end.

(** How the worker runs against its caller: the steps it has completed
    when [thread.join(timeout)] returns, and those it completes before
    each of the caller's next reads. [join] returns when the thread has
    ended or the timeout has elapsed, whichever is first; it has timed
    out when the thread is alive on its return. *)
Record schedule := {
  before_join : nat;
  before_exception_test : nat;
  before_is_alive : nat;
  before_return : nat
}.

(** The [threading] module of the interpreter: the largest timeout that
    [thread.join] accepts, and the message of the [OverflowError] it
    raises for a larger one. *)
Record threading := {
  TIMEOUT_MAX : Z;
  overflow_message : string
}.

(** The timeout is an integer number of seconds. [thread.join(timeout)]
    raises [OverflowError] for a timeout above [TIMEOUT_MAX], with the
    worker already started; otherwise it waits, and the caller goes on to
    its three reads. *)
Definition exec_run_with_timeout (py : threading) (api : exec_api)
    (sched : schedule) (container : Container) (cmd : string) (timeout : Z)
    : outcome (option string) :=
  if (TIMEOUT_MAX py <? timeout)%Z then
    Raises (OverflowError (overflow_message py))
  else
    let at_test := before_join sched + before_exception_test sched in
    let at_alive := at_test + before_is_alive sched in
    let at_return := at_alive + before_return sched in
    match exception (vars (worker_after api container cmd at_test)) with
    | Some e => Raises e
    | None =>
        if is_alive (worker_after api container cmd at_alive) then
          Raises (TimeoutError ("Command '" +:+ cmd +:+ "' timed out after "
                                +:+ pretty timeout +:+ " seconds"))
        else
          Returns (exec_result (vars (worker_after api container cmd at_return)))
    end.

(** [join] returned because the thread had ended. *)
Definition ended_at_join (api : exec_api) (sched : schedule)
    (container : Container) (cmd : string) : Prop :=
  is_alive (worker_after api container cmd (before_join sched)) = false.

(** [join] returned because the timeout had elapsed. *)
Definition timed_out_at_join (api : exec_api) (sched : schedule)
    (container : Container) (cmd : string) : Prop :=
  is_alive (worker_after api container cmd (before_join sched)) = true.

(** The worker is inside the dispatch: it has neither returned from
    [exec_start] nor raised. *)
Definition dispatching (t : thread) : bool :=
  match pc t with AtCreate | AtStart _ => true | _ => false end.

(** What the dispatch of the command does when it is left to run: it
    returns the output [r] of the command, or it raises [e]. *)
Definition dispatch_returns (api : exec_api) (container : Container)
    (cmd : string) (r : string) : Prop :=
  exists d i, exec_create api (id container) cmd = Returns d
              /\ d !! "Id" = Some i
              /\ exec_start api i = Returns r.

Definition dispatch_raises (api : exec_api) (container : Container)
    (cmd : string) (e : exn) : Prop :=
  exec_create api (id container) cmd = Raises e
  \/ (exists d, exec_create api (id container) cmd = Returns d
                /\ d !! "Id" = None /\ e = KeyError "Id")
  \/ (exists d i, exec_create api (id container) cmd = Returns d
                  /\ d !! "Id" = Some i
                  /\ exec_start api i = Raises e).

(** The timeout-specific error: a [TimeoutError] whose message contains
    the command text and the timeout in seconds. *)
Definition timeout_error (cmd : string) (timeout : Z) (e : exn) : Prop :=
  exists msg, e = TimeoutError msg
              /\ contains msg cmd /\ contains msg (pretty timeout).

(** What the state of the worker says about the dispatch. *)
Definition consistent (api : exec_api) (container : Container)
    (cmd : string) (t : thread) : Prop :=
  match pc t with
  | AtCreate => vars t = Locals None None None
  | AtStart i =>
      (exists d, exec_create api (id container) cmd = Returns d
                 /\ d !! "Id" = Some i)
      /\ exec_result (vars t) = None /\ exception (vars t) = None
  | Returning | Terminated =>
      (exception (vars t) = None
       /\ exists r, exec_result (vars t) = Some r
                    /\ dispatch_returns api container cmd r)
      \/ (exec_result (vars t) = None
          /\ exists e, exception (vars t) = Some e
                       /\ dispatch_raises api container cmd e)
  end.

(** ** Sample inputs, for running the model *)

(** An outside world in which every call succeeds. *)
Definition all_succeed : environment := {|
  fails := fun _ _ => None;
  read_bytes := fun _ _ => "";
  container_info := fun _ _ => ∅;
  format_exc := fun e => "Traceback (most recent call last): " +:+ exn_class e
|}.

Definition api_error (msg : string) : exn := Exn "APIError" msg.

(** The engine refuses to remove images. *)
Definition removal_refused : environment := {|
  fails := fun _ c =>
    match c with
    | ImagesRemove _ _ => Some (api_error "image is in use")
    | _ => None
    end;
  read_bytes := fun _ _ => "";
  container_info := fun _ _ => ∅;
  format_exc := fun e => "Traceback (most recent call last): " +:+ exn_class e
|}.

(** The graceful stop fails and so does the inspection of the container:
    the kill fallback fails. *)
Definition stop_and_inspect_refused : environment := {|
  fails := fun _ c =>
    match c with
    | ContainerStop _ _ => Some (api_error "cannot stop container")
    | InspectContainer _ => Some (api_error "no such container")
    | _ => None
    end;
  read_bytes := fun _ _ => "";
  container_info := fun _ _ => ∅;
  format_exc := fun e => "Traceback (most recent call last): " +:+ exn_class e
|}.

(** The graceful stop fails; the engine reports process 4242, which is
    killed. *)
Definition stop_refused : environment := {|
  fails := fun _ c =>
    match c with
    | ContainerStop _ _ => Some (api_error "cannot stop container")
    | _ => None
    end;
  read_bytes := fun _ _ => "";
  container_info := fun _ _ => {["State" := {["Pid" := 4242%Z]}]};
  format_exc := fun e => "Traceback (most recent call last): " +:+ exn_class e
|}.

(** The engine refuses to remove containers. *)
Definition container_removal_refused : environment := {|
  fails := fun _ c =>
    match c with
    | ContainerRemove _ _ => Some (api_error "removal in progress")
    | _ => None
    end;
  read_bytes := fun _ _ => "";
  container_info := fun _ _ => ∅;
  format_exc := fun e => "Traceback (most recent call last): " +:+ exn_class e
|}.

Definition sample_container : Container := {| id := "3f4e"; name := "sweb.eval.x" |}.

(** Path operations that are exact on normalised paths whose name has no
    dot: the name is what follows the last ["/"]. *)
Definition plain_pathlib : pathlib := {|
  with_suffix := fun p suffix => Returns (p +:+ suffix);
  path_name := fun p =>
    String.substring (String.length (head_upto_sep p))
      (String.length p - String.length (head_upto_sep p)) p;
  parent := fun p => if String.eqb (dirname p) "" then "." else dirname p
|}.

(** CPython on 64-bit Linux. *)
Definition cpython_linux : threading := {|
  TIMEOUT_MAX := 9223372036;
  overflow_message := "timeout value is too large"
|}.

(** An engine that runs the command and answers ["done"]. *)
Definition api_done : exec_api := {|
  exec_create := fun _ _ => Returns {["Id" := "e1"]};
  exec_start := fun _ => Returns "done"
|}.

(** An engine whose [exec_start] raises. *)
Definition api_broken : exec_api := {|
  exec_create := fun _ _ => Returns {["Id" := "e1"]};
  exec_start := fun _ => Raises (api_error "exec failed")
|}.

(** The worker ends before [join] returns. *)
Definition prompt : schedule :=
  {| before_join := 3; before_exception_test := 0;
     before_is_alive := 0; before_return := 0 |}.

(** The worker is inside [exec_start] throughout. *)
Definition stuck : schedule :=
  {| before_join := 1; before_exception_test := 0;
     before_is_alive := 0; before_return := 0 |}.

(** [join] times out with the worker inside [exec_start]; the worker ends
    after the caller's test of [exception] and before its call of
    [is_alive]. *)
Definition late_finish : schedule :=
  {| before_join := 1; before_exception_test := 0;
     before_is_alive := 2; before_return := 0 |}.

(** ** write_to_container (lines 75-78) *)

Definition HEREDOC_DELIMITER : string := "EOF_1399519320".

(** The command of line 77. *)
Definition heredoc_command (data dst : string) : string :=
  "cat <<'" +:+ HEREDOC_DELIMITER +:+ "' > " +:+ dst +:+ LF
  +:+ data +:+ LF +:+ HEREDOC_DELIMITER.

Definition write_to_container (env : environment) (container : Container)
    (data dst : string) : M unit :=
  let command := heredoc_command data dst in
  perform env (ExecRun (id container) command).

(** ** list_images and clean_images (lines 190-207) *)

(** [client.images.list(all=True)]: the call is made, and when it goes
    through it answers [images], the images of the engine with the tags of
    each. *)
Definition list_images (env : environment) (images : list (list string))
    : M (gset string) :=
  perform env (ImagesList true);;
  mret (list_to_set (concat images)).

(** The order in which a [for] loop goes through a set: every element
    once, in an order the language does not fix. *)
Record set_iteration := {
  iterate : gset string -> list string;
  iterate_perm : forall s, iterate s ≡ₚ elements s
}.

(** The body of the loop of [clean_images] for one image, with the
    counter [removed] before and after (lines 200-206). *)
Definition clean_image (env : environment) (cache : string) (clean : bool)
    (prior_images : gset string) (image_name : string) (removed : nat)
    : M nat :=
  if should_remove image_name cache clean prior_images then
    try_except
      (cleanup_image env image_name true LoggerQuiet;;
       mret (S removed))
      (fun e =>
         print ("Error removing image " +:+ image_name +:+ ": " +:+ exn_msg e);;
         mret removed)
  else mret removed.

Fixpoint clean_loop (env : environment) (cache : string) (clean : bool)
    (prior_images : gset string) (images : list string) (removed : nat)
    : M nat :=
  match images with
  | [] => mret removed
  | image_name :: rest =>
      removed ← clean_image env cache clean prior_images image_name removed;
      clean_loop env cache clean prior_images rest removed
  end.

Definition clean_images (env : environment) (order : set_iteration)
    (images : list (list string)) (prior_images : gset string)
    (cache : string) (clean : bool) : M unit :=
  images ← list_images env images;
  print "Cleaning cached images...";;
  removed ← clean_loop env cache clean prior_images (iterate order images) 0;
  print ("Removed " +:+ pretty removed +:+ " images.").

(** The removal call [cleanup_image] makes for an image. *)
Definition removal_of (image_name : string) : call :=
  ImagesRemove image_name true.

(** What the engine answers to the removal of each of [names] in turn,
    after the calls of [history]: [None] when the removal goes through,
    the error when it fails. *)
Fixpoint removal_results (env : environment) (history : list call)
    (names : list string) : list (string * option exn) :=
  match names with
  | [] => []
  | n :: rest =>
      (n, fails env history (removal_of n))
      :: removal_results env (history ++ [removal_of n]) rest
  end.

(** One line for each removal that failed, with the name of the image and
    the text of the error. *)
Fixpoint error_lines (results : list (string * option exn)) : list line :=
  match results with
  | [] => []
  | (n, Some e) :: rest =>
      Printed ("Error removing image " +:+ n +:+ ": " +:+ exn_msg e)
      :: error_lines rest
  | (_, None) :: rest => error_lines rest
  end.

(** The number of removals that went through. *)
Fixpoint removed_count (results : list (string * option exn)) : nat :=
  match results with
  | [] => 0
  | (_, None) :: rest => S (removed_count rest)
  | (_, Some _) :: rest => removed_count rest
  end.

(** The tags [clean_images] selects, in the order in which it goes
    through them. *)
Definition selected (order : set_iteration) (images : list (list string))
    (prior_images : gset string) (cache : string) (clean : bool)
    : list string :=
  List.filter (fun n => should_remove n cache clean prior_images)
    (iterate order (list_to_set (concat images))).

(** The lines all went to the [info] method of the logger [l]. *)
Definition logged_to (l : string) (lines : list line) : Prop :=
  Forall (fun x => exists s, x = LoggerInfo l s) lines.

(** The messages of the three handlers of [cleanup_container] (lines
    131-133, 147-150 and 158-161). *)
Definition stop_failure_message (container : Container) (e : exn) : string :=
  "Failed to stop container " +:+ name container +:+ ": " +:+ exn_msg e
  +:+ ". Trying to forcefully kill...".

Definition kill_failure_message (env : environment) (container : Container)
    (e2 : exn) : string :=
  "Failed to forcefully kill container " +:+ name container +:+ ": "
  +:+ exn_msg e2 +:+ LF +:+ format_exc env e2.

Definition removal_failure_message (env : environment)
    (container : Container) (e : exn) : string :=
  "Failed to remove container " +:+ name container +:+ ": " +:+ exn_msg e
  +:+ LF +:+ format_exc env e.

(** [name] is a tag of one of the listed images. *)
Definition tagged (images : list (list string)) (name : string) : Prop :=
  exists tags, In tags images /\ In name tags.

(** The path has a ["/"] in it. *)
Definition has_sep (p : string) : Prop :=
  In "/"%char (list_ascii_of_string p).

(** The eight calls of [copy_to_container], in the order of lines 56-72,
    for the archive [tar_path] and its bytes [data]. *)
Definition copy_steps (pl : pathlib) (container : Container)
    (src dst tar_path data : string) : list call :=
  [TarOpen tar_path;
   TarAdd src (path_name pl src);
   FileRead tar_path;
   ExecRun (id container) ("mkdir -p " +:+ parent pl dst);
   PutArchive (id container) (dirname dst) data;
   ExecRun (id container) ("tar -xf " +:+ dst +:+ ".tar -C " +:+ parent pl dst);
   Unlink tar_path;
   ExecRun (id container) ("rm " +:+ dst +:+ ".tar")].

(** The order of [elements]. *)
Definition elements_order : set_iteration :=
  {| iterate := elements; iterate_perm := fun s => reflexivity (elements s) |}.

(** Three images: a base image, an eval image with two tags, and an
    untagged one. *)
Definition sample_listing : list (list string) :=
  [["sweb.base.x:latest"];
   ["sweb.eval.a:latest"; "sweb.eval.a:v1"];
   []].

(** The engine cannot list its images. *)
Definition listing_refused : environment := {|
  fails := fun _ c =>
    match c with
    | ImagesList _ => Some (api_error "engine down")
    | _ => None
    end;
  read_bytes := fun _ _ => "";
  container_info := fun _ _ => ∅;
  format_exc := fun e => "Traceback (most recent call last): " +:+ exn_class e
|}.

(** The engine refuses to remove the base image and removes the others. *)
Definition base_removal_refused : environment := {|
  fails := fun _ c =>
    match c with
    | ImagesRemove "sweb.base.x:latest" _ => Some (api_error "image is in use")
    | _ => None
    end;
  read_bytes := fun _ _ => "";
  container_info := fun _ _ => ∅;
  format_exc := fun e => "Traceback (most recent call last): " +:+ exn_class e
|}.

(** The engine fails at every call it is asked to make. *)
Definition all_refused : environment := {|
  fails := fun _ _ => Some (api_error "engine down");
  read_bytes := fun _ _ => "";
  container_info := fun _ _ => ∅;
  format_exc := fun e => "Traceback (most recent call last): " +:+ exn_class e
|}.

(** The addition of the file to the archive fails. *)
Definition tar_add_refused : environment := {|
  fails := fun _ c =>
    match c with
    | TarAdd _ _ => Some (Exn "FileNotFoundError" "No such file or directory")
    | _ => None
    end;
  read_bytes := fun _ _ => "";
  container_info := fun _ _ => ∅;
  format_exc := fun e => "Traceback (most recent call last): " +:+ exn_class e
|}.

(** The upload of the archive is refused. *)
Definition upload_refused : environment := {|
  fails := fun _ c =>
    match c with
    | PutArchive _ _ _ => Some (api_error "no space left")
    | _ => None
    end;
  read_bytes := fun _ _ => "tar";
  container_info := fun _ _ => ∅;
  format_exc := fun e => "Traceback (most recent call last): " +:+ exn_class e
|}.

(** The graceful stop fails and the engine reports no process for the
    container. *)
Definition stop_refused_no_pid : environment := {|
  fails := fun _ c =>
    match c with
    | ContainerStop _ _ => Some (api_error "cannot stop container")
    | _ => None
    end;
  read_bytes := fun _ _ => "";
  container_info := fun _ _ => {["State" := {["Status" := 0%Z]}]};
  format_exc := fun e => "Traceback (most recent call last): " +:+ exn_class e
|}.

(** The graceful stop fails and the engine's report has no ["State"]. *)
Definition stop_refused_no_state : environment := {|
  fails := fun _ c =>
    match c with
    | ContainerStop _ _ => Some (api_error "cannot stop container")
    | _ => None
    end;
  read_bytes := fun _ _ => "";
  container_info := fun _ _ => ∅;
  format_exc := fun e => "Traceback (most recent call last): " +:+ exn_class e
|}.

(** The dispatch raises between the caller's test of [exception] and its
    call of [is_alive]. *)
Definition late_failure : schedule :=
  {| before_join := 1; before_exception_test := 0;
     before_is_alive := 2; before_return := 0 |}.

(** [s.split("\n")]: the lines of a text. *)
Fixpoint split_lines (s : string) : list string :=
  match s with
  | "" => [""]
  | String c rest =>
      if Ascii.eqb c (ascii_of_nat 10) then "" :: split_lines rest
      else match split_lines rest with
           | l :: ls => String c l :: ls
           | [] => [String c ""]
           end
  end.

(** The text is a single line. *)
Definition single_line (s : string) : Prop :=
  ~ In (ascii_of_nat 10) (list_ascii_of_string s).

(** The graceful stop fails, process 4242 is killed, and the engine then
    refuses to remove the container. *)
Definition stop_and_removal_refused : environment := {|
  fails := fun _ c =>
    match c with
    | ContainerStop _ _ => Some (api_error "cannot stop container")
    | ContainerRemove _ _ => Some (api_error "removal in progress")
    | _ => None
    end;
  read_bytes := fun _ _ => "";
  container_info := fun _ _ => {["State" := {["Pid" := 4242%Z]}]};
  format_exc := fun e => "Traceback (most recent call last): " +:+ exn_class e
|}.

(** * Part II: the properties *)

(** ** Strings *)

Lemma append_cons (a : ascii) (s t : string) :
  String a s +:+ t = String a (s +:+ t).
Proof. reflexivity. Qed.

Lemma startswith_iff (s p : string) :
  startswith s p = true <-> has_prefix s p.
Proof.
  unfold startswith, has_prefix. revert s.
  induction p as [|a p IH]; intros s.
  - split; [intros _; exists s; reflexivity | intros _; destruct s; reflexivity].
  - destruct s as [|b s]; simpl.
    + split; [discriminate | intros [rest H]; rewrite append_cons in H; discriminate].
    + destruct (ascii_dec a b) as [->|Hab].
      * rewrite IH.
        split; intros [rest H]; exists rest; rewrite append_cons in *; congruence.
      * split; [discriminate | intros [rest H]; rewrite append_cons in H; congruence].
  Qed.

Lemma startswith_false_iff (s p : string) :
  startswith s p = false <-> ~ has_prefix s p.
Proof.
  rewrite <- startswith_iff. destruct (startswith s p); split; congruence.
Qed.

(** The three tier prefixes exclude one another. *)
Lemma base_not_env s : has_prefix s "sweb.base" -> ~ has_prefix s "sweb.env".
Proof. intros [r1 H1] [r2 H2]. subst s. repeat rewrite append_cons in H2. congruence. Qed.

Lemma base_not_eval s : has_prefix s "sweb.base" -> ~ has_prefix s "sweb.eval".
Proof. intros [r1 H1] [r2 H2]. subst s. repeat rewrite append_cons in H2. congruence. Qed.

Lemma env_not_eval s : has_prefix s "sweb.env" -> ~ has_prefix s "sweb.eval".
Proof. intros [r1 H1] [r2 H2]. subst s. repeat rewrite append_cons in H2. congruence. Qed.

(** ** should_remove *)

(** The three conditions of the source, as sets of cache levels. *)
Lemma cache_in_none cache :
  bool_decide (cache ∈ ({["none"]} : gset string)) = true <-> cache = "none".
Proof. rewrite bool_decide_eq_true, elem_of_singleton. tauto. Qed.

Lemma cache_in_none_base cache :
  bool_decide (cache ∈ ({["none"; "base"]} : gset string)) = true
  <-> cache = "none" \/ cache = "base".
Proof.
  rewrite bool_decide_eq_true, elem_of_union, !elem_of_singleton. tauto.
Qed.

Lemma cache_in_none_base_env cache :
  bool_decide (cache ∈ ({["none"; "base"; "env"]} : gset string)) = true
  <-> cache = "none" \/ cache = "base" \/ cache = "env".
Proof.
  rewrite bool_decide_eq_true, !elem_of_union, !elem_of_singleton. tauto.
Qed.

Lemma clean_or_new (clean : bool) (image_name : string) (prior_images : gset string) :
  clean || negb (bool_decide (image_name ∈ prior_images)) = true
  <-> clean = true \/ image_name ∉ prior_images.
Proof.
  rewrite orb_true_iff, negb_true_iff, bool_decide_eq_false. reflexivity.
Qed.

(** When [should_remove] returns [True]. *)
Lemma should_remove_true (image_name cache : string) (clean : bool)
    (prior_images : gset string) :
  should_remove image_name cache clean prior_images = true
  <-> tier_eligible image_name cache
      /\ (clean = true \/ image_name ∉ prior_images).
Proof.
  unfold should_remove, tier_eligible.
  destruct (startswith image_name "sweb.base") eqn:Hbase;
    [apply startswith_iff in Hbase | apply startswith_false_iff in Hbase].
  { pose proof (base_not_env _ Hbase). pose proof (base_not_eval _ Hbase).
    destruct (bool_decide (cache ∈ _) && _) eqn:Hc.
    - apply andb_true_iff in Hc as [Hc Hn].
      apply cache_in_none in Hc. apply clean_or_new in Hn. tauto.
    - split; [discriminate|]. intros [Ht Hn]. exfalso.
      apply clean_or_new in Hn. apply andb_false_iff in Hc.
      assert (cache = "none") as Hcache by tauto.
      apply cache_in_none in Hcache. destruct Hc; congruence. }
  destruct (startswith image_name "sweb.env") eqn:Henv;
    [apply startswith_iff in Henv | apply startswith_false_iff in Henv].
  { pose proof (env_not_eval _ Henv).
    destruct (bool_decide (cache ∈ _) && _) eqn:Hc.
    - apply andb_true_iff in Hc as [Hc Hn].
      apply cache_in_none_base in Hc. apply clean_or_new in Hn. tauto.
    - split; [discriminate|]. intros [Ht Hn]. exfalso.
      apply clean_or_new in Hn. apply andb_false_iff in Hc.
      assert (cache = "none" \/ cache = "base") as Hcache by tauto.
      apply cache_in_none_base in Hcache. destruct Hc; congruence. }
  destruct (startswith image_name "sweb.eval") eqn:Heval;
    [apply startswith_iff in Heval | apply startswith_false_iff in Heval].
  { destruct (bool_decide (cache ∈ _) && _) eqn:Hc.
    - apply andb_true_iff in Hc as [Hc Hn].
      apply cache_in_none_base_env in Hc. apply clean_or_new in Hn. tauto.
    - split; [discriminate|]. intros [Ht Hn]. exfalso.
      apply clean_or_new in Hn. apply andb_false_iff in Hc.
      assert (cache = "none" \/ cache = "base" \/ cache = "env") as Hcache by tauto.
      apply cache_in_none_base_env in Hcache. destruct Hc; congruence. }
  split; [discriminate | tauto].
Qed.

(** C1: [should_remove] returns [True] exactly when the name starts with
    "sweb.base" and cache is "none", or starts with "sweb.env" and cache
    is "none" or "base", or starts with "sweb.eval" and cache is "none",
    "base" or "env", and moreover [clean] is set or the name is not among
    the prior images; a name with none of the three prefixes is never
    removed, whatever the cache level, the flag and the prior images. *)
Theorem should_remove_iff (image_name cache : string) (clean : bool)
    (prior_images : gset string) :
  (should_remove image_name cache clean prior_images = true
   <-> tier_eligible image_name cache
       /\ (clean = true \/ image_name ∉ prior_images))
  /\ (~ has_prefix image_name "sweb.base" ->
      ~ has_prefix image_name "sweb.env" ->
      ~ has_prefix image_name "sweb.eval" ->
      should_remove image_name cache clean prior_images = false).
Proof.
  split; [apply should_remove_true|].
  intros Hbase Henv Heval.
  destruct (should_remove image_name cache clean prior_images) eqn:H;
    [|reflexivity].
  apply should_remove_true in H as [Ht _]. unfold tier_eligible in Ht. tauto.
Qed.

Lemma should_remove_iff_witness :
  should_remove "sweb.eval.x" "env" true {["sweb.eval.x"]} = true
  /\ should_remove "ubuntu:22.04" "none" true ∅ = false.
Proof.
  split.
  - apply (proj1 (should_remove_iff "sweb.eval.x" "env" true {["sweb.eval.x"]})).
    split; [|left; reflexivity].
    right; right. split; [exists ".x"; reflexivity | tauto].
  - apply (proj2 (should_remove_iff "ubuntu:22.04" "none" true ∅));
      intros [rest H]; repeat rewrite append_cons in H; discriminate.
Defined.

(** An image that existed before the run is kept when [clean] is off,
    whatever its tier and the cache level. *)
Lemma should_remove_existing_kept (image_name cache : string)
    (prior_images : gset string) :
  image_name ∈ prior_images ->
  should_remove image_name cache false prior_images = false.
Proof.
  intros Hin.
  destruct (should_remove image_name cache false prior_images) eqn:H;
    [|reflexivity].
  apply should_remove_true in H as [_ [Hc | Hn]]; [discriminate | contradiction].
Qed.

(** The two calls of the specification's examples do not both return
    [True]: the first already returns [False]. *)
Lemma should_remove_examples_not_true :
  ~ (should_remove "sweb.env.x" "base" false {["sweb.env.x"]} = true
     /\ should_remove "sweb.eval.x" "env" false {["sweb.eval.x"]} = true).
Proof. intros [H _]. vm_compute in H. discriminate. Qed.

(** C2, amended: the env image under cache "base" and the eval image
    under cache "env", each present before the run and with [clean] off,
    are both kept ([False]): the tier is within the removal set, but the
    image existed before and [clean] is not set. With [clean] on, or with
    the image absent from the prior set, both calls return [True]. *)
Theorem should_remove_examples :
  should_remove "sweb.env.x" "base" false {["sweb.env.x"]} = false
  /\ should_remove "sweb.eval.x" "env" false {["sweb.eval.x"]} = false
  /\ should_remove "sweb.env.x" "base" true {["sweb.env.x"]} = true
  /\ should_remove "sweb.eval.x" "env" true {["sweb.eval.x"]} = true
  /\ should_remove "sweb.env.x" "base" false ∅ = true
  /\ should_remove "sweb.eval.x" "env" false ∅ = true.
Proof.
  split; [apply should_remove_existing_kept, elem_of_singleton; reflexivity|].
  split; [apply should_remove_existing_kept, elem_of_singleton; reflexivity|].
  repeat split; vm_compute; reflexivity.
Qed.

(** ** get_session_id *)

Lemma get_in (s : string) (i : nat) :
  i < String.length s ->
  exists c, String.get i s = Some c /\ In c (list_ascii_of_string s).
Proof.
  revert i. induction s as [|a s IH]; intros i Hi; simpl in *; [lia|].
  destruct i as [|i].
  - exists a. split; [reflexivity | left; reflexivity].
  - destruct (IH i) as [c [Hget Hin]]; [lia|].
    exists c. split; [assumption | right; assumption].
Qed.

(** A draw from a non-empty sequence returns one of its characters. *)
Lemma choice_returns (random_gen : SystemRandom) (k : nat) (seq : string) :
  0 < String.length seq ->
  exists c, choice random_gen k seq = Returns c
            /\ In c (list_ascii_of_string seq).
Proof.
  intros Hlen. unfold choice.
  destruct (get_in seq (randbelow random_gen k (String.length seq)))
    as [c [Hget Hin]].
  - apply randbelow_lt. assumption.
  - exists c. rewrite Hget. split; [reflexivity | assumption].
Qed.

Lemma join_choices_returns (random_gen : SystemRandom) (characters : string)
    (n : nat) :
  0 < String.length characters ->
  forall k, exists s,
    join_choices random_gen characters k n = Returns s
    /\ String.length s = n
    /\ Forall (fun c => In c (list_ascii_of_string characters))
              (list_ascii_of_string s).
Proof.
  intros Hlen. induction n as [|n IH]; intros k; simpl.
  - exists "". repeat split. constructor.
  - destruct (choice_returns random_gen k characters Hlen) as [c [Hc Hin]].
    destruct (IH (S k)) as [s [Hs [Hl Hall]]].
    exists (String c s). rewrite Hc, Hs. simpl.
    repeat split; [congruence | constructor; assumption].
Qed.

(** The characters drawn from are the 62 alphanumeric ones. *)
Lemma characters_alphanumeric :
  String.length ((("" +:+ ascii_uppercase) +:+ ascii_lowercase) +:+ digits) = 62
  /\ Forall (fun c => alphanumeric c = true)
       (list_ascii_of_string
          ((("" +:+ ascii_uppercase) +:+ ascii_lowercase) +:+ digits)).
Proof. split; [reflexivity|]. vm_compute. repeat constructor. Qed.

Lemma not_positive_integer (v : pyval) :
  ~ positive_integer v -> negb (isinstance_int v) || le_zero v = true.
Proof.
  intros Hv. destruct v as [n| | |]; try reflexivity. simpl.
  apply Z.leb_le. destruct (Z_lt_le_dec 0 n) as [Hpos|Hle]; [|assumption].
  exfalso. apply Hv. exists n. split; [reflexivity | assumption].
Qed.

(** C7: for a positive integer [length], [get_session_id] returns a
    string of exactly that length whose characters are all alphanumeric
    (uppercase letter, lowercase letter or digit); for an argument that is
    not a positive integer (zero, negative, or not an integer) it raises
    [ValueError]. *)
Theorem get_session_id_spec (random_gen : SystemRandom) :
  (forall n : Z, (0 < n)%Z ->
     exists s, get_session_id random_gen (PyInt n) = Returns s
               /\ Z.of_nat (String.length s) = n
               /\ Forall (fun c => alphanumeric c = true)
                         (list_ascii_of_string s))
  /\ (forall v : pyval, ~ positive_integer v ->
        get_session_id random_gen v
        = Raises (ValueError "Length must be a positive integer.")).
Proof.
  split.
  - intros n Hn. unfold get_session_id.
    replace (negb (isinstance_int (PyInt n)) || le_zero (PyInt n)) with false
      by (simpl; symmetry; apply Z.leb_gt; assumption).
    destruct characters_alphanumeric as [Hlen Halnum].
    set (characters := (("" +:+ ascii_uppercase) +:+ ascii_lowercase) +:+ digits) in *.
    replace (String.eqb characters "") with false by reflexivity.
    destruct (join_choices_returns random_gen characters
                (range_len (PyInt n))) with (k := 0) as [s [Hs [Hl Hall]]].
    { rewrite Hlen. lia. }
    exists s. split; [exact Hs|]. split.
    + rewrite Hl. simpl. lia.
    + rewrite List.Forall_forall in *. intros c Hc. apply Halnum, Hall, Hc.
  - intros v Hv. unfold get_session_id.
    rewrite (not_positive_integer v Hv). reflexivity.
Qed.

Lemma get_session_id_spec_witness :
  (exists s, get_session_id counting_random (PyInt 8) = Returns s
             /\ Z.of_nat (String.length s) = 8%Z
             /\ Forall (fun c => alphanumeric c = true) (list_ascii_of_string s))
  /\ get_session_id counting_random (PyInt 0)
     = Raises (ValueError "Length must be a positive integer.")
  /\ get_session_id counting_random (PyFloat 5 (-1))
     = Raises (ValueError "Length must be a positive integer.").
Proof.
  split; [|split].
  - apply (proj1 (get_session_id_spec counting_random) 8%Z). lia.
  - apply (proj2 (get_session_id_spec counting_random) (PyInt 0)).
    intros [n [H Hn]]. inversion H. lia.
  - apply (proj2 (get_session_id_spec counting_random) (PyFloat 5 (-1))).
    intros [n [H Hn]]. discriminate.
Defined.

(** ** copy_to_container *)

(** A bare file name, without any "/", has an empty parent directory. *)
Lemma dirname_bare_name (p : string) :
  Forall (fun c => c <> "/"%char) (list_ascii_of_string p) -> dirname p = "".
Proof.
  intros Hp.
  assert (head_upto_sep p = "") as Hhead.
  { induction p as [|c p IH]; [reflexivity|]. simpl in *.
    inversion Hp as [|? ? Hc Hrest]; subst.
    rewrite (IH Hrest). destruct (Ascii.eqb_spec c "/"); [contradiction|reflexivity]. }
  unfold dirname. rewrite Hhead. reflexivity.
Qed.

(** C8: when the parent directory of [dst] is empty, [copy_to_container]
    raises [ValueError] and the world is as it was: no call has been made
    to the container or to the local file system, and no temporary file
    has been created. *)
Theorem copy_to_container_empty_parent (env : environment) (pl : pathlib)
    (container : Container) (src dst : string) (w : world) :
  dirname dst = "" ->
  copy_to_container env pl container src dst w
  = (w, Raises (ValueError
       ("Destination path parent directory cannot be empty!, dst: " +:+ dst))).
Proof.
  intros Hdst. unfold copy_to_container. rewrite Hdst. reflexivity.
Qed.

Lemma copy_to_container_empty_parent_witness :
  dirname "file.txt" = ""
  /\ copy_to_container all_succeed plain_pathlib sample_container
       "/tmp/patch" "file.txt" untouched
     = (untouched, Raises (ValueError
          "Destination path parent directory cannot be empty!, dst: file.txt")).
Proof.
  split; [reflexivity|].
  apply (copy_to_container_empty_parent all_succeed plain_pathlib
           sample_container "/tmp/patch" "file.txt" untouched).
  reflexivity.
Defined.

(** ** cleanup_image and cleanup_container: the calls that do nothing *)

(** C9: with no container handle, [cleanup_container] returns at once:
    no error, no call to the engine, no output, for every environment and
    every logging mode. *)
Theorem cleanup_container_no_handle (env : environment) (logger : logger_arg)
    (w : world) :
  cleanup_container env None logger w = (w, Returns tt).
Proof. reflexivity. Qed.

(** C10: with [rm_image] false, [cleanup_image] does nothing: no removal
    call, no log or print output, no error, for every environment, image
    and logging mode. *)
Theorem cleanup_image_not_requested (env : environment) (image_id : string)
    (logger : logger_arg) (w : world) :
  cleanup_image env image_id false logger w = (w, Returns tt).
Proof. destruct logger; reflexivity. Qed.

(** ** cleanup_image when the removal fails *)

Ltac run_world :=
  unfold cleanup_image, stop_or_kill, force_remove, kill_fallback,
    logging_mode, try_except, inspect_container, getitem, perform, print,
    discard, logger_info, raise, mbind, M_bind, mret, M_ret;
  simpl.

Lemma substringb_unfold (needle haystack : string) :
  substringb needle haystack
  = String.prefix needle haystack
    || match haystack with
       | "" => false
       | String _ rest => substringb needle rest
       end.
Proof. destruct haystack; reflexivity. Qed.

Lemma contains_substringb (haystack needle : string) :
  contains haystack needle -> substringb needle haystack = true.
Proof.
  intros [before [after H]]. subst haystack.
  induction before as [|c before IH].
  - change ("" +:+ needle +:+ after) with (needle +:+ after).
    rewrite substringb_unfold.
    replace (String.prefix needle (needle +:+ after)) with true; [reflexivity|].
    symmetry. apply (startswith_iff (needle +:+ after) needle).
    exists after. reflexivity.
  - rewrite append_cons, substringb_unfold, IH. apply orb_true_r.
Qed.

(** The failure in the three modes, from any state of the world: what is
    raised or returned, which call was made and which lines written. *)
Lemma cleanup_image_failure_none (env : environment) (image_id : string)
    (w : world) (e : exn) :
  fails env (calls w) (ImagesRemove image_id true) = Some e ->
  cleanup_image env image_id true LoggerNone w
  = (World (calls w ++ [ImagesRemove image_id true])
           (output w ++ [Printed ("Attempting to remove image " +:+ image_id +:+ "...")]),
     Raises e).
Proof. intros H. run_world. rewrite H. reflexivity. Qed.

Lemma cleanup_image_failure_quiet (env : environment) (image_id : string)
    (w : world) (e : exn) :
  fails env (calls w) (ImagesRemove image_id true) = Some e ->
  cleanup_image env image_id true LoggerQuiet w
  = (World (calls w ++ [ImagesRemove image_id true]) (output w), Raises e).
Proof. intros H. run_world. rewrite H. reflexivity. Qed.

Lemma cleanup_image_failure_logger (env : environment) (image_id : string)
    (w : world) (e : exn) (l : string) :
  fails env (calls w) (ImagesRemove image_id true) = Some e ->
  cleanup_image env image_id true (LoggerObject l) w
  = (World (calls w ++ [ImagesRemove image_id true])
           (output w
            ++ [LoggerInfo l ("Attempting to remove image " +:+ image_id +:+ "...");
                LoggerInfo l ("Failed to remove image " +:+ image_id +:+ ": "
                              +:+ exn_msg e +:+ LF +:+ format_exc env e)]),
     Returns tt).
Proof.
  intros H. run_world. rewrite H. simpl. rewrite <- app_assoc. reflexivity.
Qed.

(** With no logger the failed removal is re-raised and its error is not
    printed: the console shows the progress line only. *)
Lemma cleanup_image_error_not_printed :
  cleanup_image removal_refused "img" true LoggerNone untouched
  = (World [ImagesRemove "img" true]
           [Printed "Attempting to remove image img..."],
     Raises (api_error "image is in use"))
  /\ ~ printed (fst (cleanup_image removal_refused "img" true LoggerNone untouched))
         "image is in use"
  /\ ~ printed (fst (cleanup_image removal_refused "img" true LoggerNone untouched))
         "Failed to remove image".
Proof.
  split; [reflexivity|].
  split; intros [s [[Hs|[]] Hc]]; injection Hs as <-;
    apply contains_substringb in Hc; vm_compute in Hc; discriminate.
Qed.

(** C4, amended: when the removal of the image fails, with [logger=None]
    the progress line is printed and the error is re-raised, without being
    printed; with [logger="quiet"] nothing is written and the error is
    re-raised; with a logger object the progress line and the failure
    message both go through that logger and the failure is swallowed. The
    call returns normally in the logger-object mode and in no other. *)
Theorem cleanup_image_failure (env : environment) (image_id : string)
    (w : world) (e : exn) :
  fails env (calls w) (ImagesRemove image_id true) = Some e ->
  cleanup_image env image_id true LoggerNone w
  = (World (calls w ++ [ImagesRemove image_id true])
           (output w ++ [Printed ("Attempting to remove image " +:+ image_id +:+ "...")]),
     Raises e)
  /\ cleanup_image env image_id true LoggerQuiet w
     = (World (calls w ++ [ImagesRemove image_id true]) (output w), Raises e)
  /\ (forall l,
        cleanup_image env image_id true (LoggerObject l) w
        = (World (calls w ++ [ImagesRemove image_id true])
                 (output w
                  ++ [LoggerInfo l ("Attempting to remove image " +:+ image_id +:+ "...");
                      LoggerInfo l ("Failed to remove image " +:+ image_id +:+ ": "
                                    +:+ exn_msg e +:+ LF +:+ format_exc env e)]),
           Returns tt))
  /\ (forall logger,
        snd (cleanup_image env image_id true logger w) = Returns tt
        <-> exists l, logger = LoggerObject l).
Proof.
  intros H.
  split; [apply cleanup_image_failure_none; assumption|].
  split; [apply cleanup_image_failure_quiet; assumption|].
  split; [intros l; apply cleanup_image_failure_logger; assumption|].
  intros [| |l].
  - rewrite (cleanup_image_failure_none _ _ _ _ H). simpl.
    split; [discriminate | intros [l Hl]; discriminate].
  - rewrite (cleanup_image_failure_quiet _ _ _ _ H). simpl.
    split; [discriminate | intros [l Hl]; discriminate].
  - rewrite (cleanup_image_failure_logger _ _ _ _ _ H). simpl.
    split; [intros _; exists l; reflexivity | reflexivity].
Qed.

Lemma cleanup_image_failure_witness :
  cleanup_image removal_refused "img" true LoggerNone untouched
  = (World [ImagesRemove "img" true]
           [Printed "Attempting to remove image img..."],
     Raises (api_error "image is in use"))
  /\ snd (cleanup_image removal_refused "img" true (LoggerObject "run") untouched)
     = Returns tt.
Proof.
  assert (fails removal_refused (calls untouched) (ImagesRemove "img" true)
          = Some (api_error "image is in use")) as H by reflexivity.
  split.
  - exact (proj1 (cleanup_image_failure removal_refused "img" untouched _ H)).
  - apply (proj2 (proj2 (proj2
      (cleanup_image_failure removal_refused "img" untouched _ H)))).
    exists "run". reflexivity.
Defined.

(** ** cleanup_container: the two stages *)

Ltac split_cases :=
  repeat match goal with
         | |- context [fails ?env ?h ?c] =>
             destruct (fails env h c) eqn:?; simpl
         | |- context [container_info ?env ?h ?c !! ?k] =>
             destruct (container_info env h c !! k) eqn:?; simpl
         | |- context [(0 <? ?p)%Z] =>
             destruct (0 <? p)%Z eqn:?; simpl
         end.

(** The removal stage always makes its call, and only that call. *)
Lemma force_remove_calls (env : environment) (container : Container)
    (logger : logger_arg) (w : world) :
  calls (fst (force_remove env container logger w))
  = calls w ++ [ContainerRemove (id container) true].
Proof. destruct logger; run_world; split_cases; reflexivity. Qed.

(** The stop-or-kill stage makes no removal call. *)
Lemma stop_or_kill_calls (env : environment) (container : Container)
    (logger : logger_arg) (w : world) :
  exists made : list call,
    calls (fst (stop_or_kill env container logger w)) = calls w ++ made
    /\ ~ In (ContainerRemove (id container) true) made.
Proof.
  destruct logger; run_world; split_cases;
    repeat rewrite <- app_assoc; simpl;
    eexists; (split; [reflexivity|]); simpl; intuition discriminate.
Qed.

(** It returns normally when the graceful stop succeeds. *)
Lemma stop_or_kill_stopped (env : environment) (container : Container)
    (logger : logger_arg) (w : world) :
  fails env (calls w) (ContainerStop (id container) 15) = None ->
  snd (stop_or_kill env container logger w) = Returns tt.
Proof. intros H. destruct logger; run_world; rewrite H; reflexivity. Qed.

(** With a logger object it returns normally whatever happens. *)
Lemma stop_or_kill_logger (env : environment) (container : Container)
    (l : string) (w : world) :
  snd (stop_or_kill env container (LoggerObject l) w) = Returns tt.
Proof. run_world; split_cases; reflexivity. Qed.

(** After a failed stop, with [None] or ["quiet"], its result is that of
    the kill fallback: the fallback's error is re-raised. *)
Lemma stop_or_kill_fallback (env : environment) (container : Container)
    (logger : logger_arg) (w : world) (e : exn) :
  fails env (calls w) (ContainerStop (id container) 15) = Some e ->
  logger = LoggerNone \/ logger = LoggerQuiet ->
  snd (stop_or_kill env container logger w)
  = snd (kill_fallback env container discard discard
           (World (calls w ++ [ContainerStop (id container) 15]) [])).
Proof.
  intros H [-> | ->]; run_world; rewrite H; simpl; split_cases; reflexivity.
Qed.

(** The cleanup after its first stage: the removal is attempted when the
    stage returns, and skipped, with the stage's error raised, when it
    raises. *)
Lemma cleanup_container_after_stage (env : environment) (container : Container)
    (logger : logger_arg) (w : world) :
  match snd (stop_or_kill env container logger w) with
  | Returns _ =>
      attempts_removal container w
        (fst (cleanup_container env (Some container) logger w))
  | Raises e =>
      cleanup_container env (Some container) logger w
      = (fst (stop_or_kill env container logger w), Raises e)
      /\ skips_removal container w
           (fst (cleanup_container env (Some container) logger w))
  end.
Proof.
  destruct (stop_or_kill_calls env container logger w) as [made [Hmade Hnot]].
  pose proof (force_remove_calls env container logger
                (fst (stop_or_kill env container logger w))) as Hrm.
  unfold cleanup_container, mbind, M_bind.
  destruct (stop_or_kill env container logger w) as [w1 [[]|e]]; simpl in *.
  - exists made. rewrite Hrm, Hmade, <- app_assoc. reflexivity.
  - split; [reflexivity|]. exists made. split; assumption.
Qed.

(** With no logger, a failed stop followed by a failed kill fallback ends
    the cleanup: the error is raised and no removal call is made. *)
Lemma cleanup_container_removal_skipped :
  cleanup_container stop_and_inspect_refused (Some sample_container)
    LoggerNone untouched
  = (World [ContainerStop "3f4e" 15; InspectContainer "3f4e"]
       [Printed "Attempting to stop container sweb.eval.x...";
        Printed ("Failed to stop container sweb.eval.x: cannot stop container."
                 +:+ " Trying to forcefully kill...")],
     Raises (api_error "no such container"))
  /\ ~ In (ContainerRemove (id sample_container) true)
         (calls (fst (cleanup_container stop_and_inspect_refused
                        (Some sample_container) LoggerNone untouched))).
Proof.
  split; [reflexivity|]. vm_compute. intuition discriminate.
Qed.

(** C6, amended: with a container handle, the force-removal is attempted
    when the graceful stop succeeds, when the kill fallback completes, and
    when the kill fallback fails under a logger object; when the kill
    fallback fails with [logger=None] or [logger="quiet"], its error is
    re-raised and the removal is not attempted. What the kill fallback
    does depends on the calls made before it only, so [fallback] runs it
    silently after the failed stop. *)
Theorem cleanup_container_removal (env : environment) (container : Container)
    (logger : logger_arg) (w : world) :
  let stop := ContainerStop (id container) 15 in
  let fallback :=
    kill_fallback env container discard discard (World (calls w ++ [stop]) []) in
  let w' := fst (cleanup_container env (Some container) logger w) in
  (fails env (calls w) stop = None -> attempts_removal container w w')
  /\ (forall e, fails env (calls w) stop = Some e ->
        snd fallback = Returns tt -> attempts_removal container w w')
  /\ (forall e l, fails env (calls w) stop = Some e ->
        logger = LoggerObject l -> attempts_removal container w w')
  /\ (forall e e2, fails env (calls w) stop = Some e ->
        snd fallback = Raises e2 ->
        logger = LoggerNone \/ logger = LoggerQuiet ->
        snd (cleanup_container env (Some container) logger w) = Raises e2
        /\ skips_removal container w w').
Proof.
  intros stop fallback w'.
  pose proof (cleanup_container_after_stage env container logger w) as Hstage.
  split; [|split; [|split]].
  - intros H. rewrite (stop_or_kill_stopped _ _ _ _ H) in Hstage. exact Hstage.
  - intros e H Hfb. destruct logger as [| |l].
    + rewrite (stop_or_kill_fallback _ _ _ _ _ H (or_introl eq_refl)) in Hstage.
      fold stop fallback in Hstage. rewrite Hfb in Hstage. exact Hstage.
    + rewrite (stop_or_kill_fallback _ _ _ _ _ H (or_intror eq_refl)) in Hstage.
      fold stop fallback in Hstage. rewrite Hfb in Hstage. exact Hstage.
    + rewrite stop_or_kill_logger in Hstage. exact Hstage.
  - intros e l H ->. rewrite stop_or_kill_logger in Hstage. exact Hstage.
  - intros e e2 H Hfb Hmode.
    rewrite (stop_or_kill_fallback _ _ _ _ _ H Hmode) in Hstage.
    fold stop fallback in Hstage. rewrite Hfb in Hstage.
    destruct Hstage as [Hres Hskip]. fold w' in Hskip.
    split; [rewrite Hres; reflexivity | exact Hskip].
Qed.

Lemma cleanup_container_removal_witness :
  attempts_removal sample_container untouched
    (fst (cleanup_container all_succeed (Some sample_container) LoggerQuiet untouched))
  /\ attempts_removal sample_container untouched
       (fst (cleanup_container stop_refused (Some sample_container) LoggerNone untouched))
  /\ attempts_removal sample_container untouched
       (fst (cleanup_container stop_and_inspect_refused (Some sample_container)
               (LoggerObject "run") untouched))
  /\ snd (cleanup_container stop_and_inspect_refused (Some sample_container)
            LoggerQuiet untouched)
     = Raises (api_error "no such container")
  /\ skips_removal sample_container untouched
       (fst (cleanup_container stop_and_inspect_refused (Some sample_container)
               LoggerQuiet untouched)).
Proof.
  split; [|split; [|split]].
  - apply (proj1 (cleanup_container_removal all_succeed sample_container
                    LoggerQuiet untouched)).
    reflexivity.
  - apply (proj1 (proj2 (cleanup_container_removal stop_refused sample_container
                           LoggerNone untouched))
             (api_error "cannot stop container"));
      reflexivity.
  - apply (proj1 (proj2 (proj2 (cleanup_container_removal stop_and_inspect_refused
                                  sample_container (LoggerObject "run") untouched)))
             (api_error "cannot stop container") "run");
      reflexivity.
  - apply (proj2 (proj2 (proj2 (cleanup_container_removal stop_and_inspect_refused
                                  sample_container LoggerQuiet untouched)))
             (api_error "cannot stop container") (api_error "no such container"));
      [reflexivity | reflexivity | right; reflexivity].
Defined.

(** ** The quiet mode *)

Lemma cleanup_image_quiet_output (env : environment) (image_id : string)
    (rm_image : bool) (w : world) :
  output (fst (cleanup_image env image_id rm_image LoggerQuiet w)) = output w.
Proof. destruct rm_image; run_world; split_cases; reflexivity. Qed.

Lemma stop_or_kill_quiet_output (env : environment) (container : Container)
    (w : world) :
  output (fst (stop_or_kill env container LoggerQuiet w)) = output w.
Proof. run_world; split_cases; reflexivity. Qed.

Lemma force_remove_quiet_output (env : environment) (container : Container)
    (w : world) :
  output (fst (force_remove env container LoggerQuiet w)) = output w.
Proof. run_world; split_cases; reflexivity. Qed.

Lemma cleanup_container_quiet_output (env : environment)
    (container : option Container) (w : world) :
  output (fst (cleanup_container env container LoggerQuiet w)) = output w.
Proof.
  destruct container as [container|]; [|reflexivity].
  pose proof (stop_or_kill_quiet_output env container w) as Hstage.
  unfold cleanup_container, mbind, M_bind.
  destruct (stop_or_kill env container LoggerQuiet w) as [w1 [[]|e]]; simpl in *.
  - rewrite force_remove_quiet_output. exact Hstage.
  - exact Hstage.
Qed.

(** The removal stage in the quiet mode re-raises the engine's error. *)
Lemma force_remove_quiet_failure (env : environment) (container : Container)
    (w : world) (e : exn) :
  fails env (calls w) (ContainerRemove (id container) true) = Some e ->
  snd (force_remove env container LoggerQuiet w) = Raises e.
Proof. intros H. run_world. rewrite H. reflexivity. Qed.

Lemma force_remove_quiet_success (env : environment) (container : Container)
    (w : world) :
  fails env (calls w) (ContainerRemove (id container) true) = None ->
  snd (force_remove env container LoggerQuiet w) = Returns tt.
Proof. intros H. run_world. rewrite H. reflexivity. Qed.

(** In the quiet mode a failed image removal is not swallowed: the call
    raises the engine's error. *)
Lemma cleanup_image_quiet_raises :
  snd (cleanup_image removal_refused "img" true LoggerQuiet untouched)
  = Raises (api_error "image is in use")
  /\ snd (cleanup_image removal_refused "img" true LoggerQuiet untouched)
     <> Returns tt.
Proof. split; [reflexivity | vm_compute; discriminate]. Qed.

Lemma stop_or_kill_stopped_calls (env : environment) (container : Container)
    (logger : logger_arg) (w : world) :
  fails env (calls w) (ContainerStop (id container) 15) = None ->
  calls (fst (stop_or_kill env container logger w))
  = calls w ++ [ContainerStop (id container) 15].
Proof. intros H. destruct logger; run_world; rewrite H; reflexivity. Qed.

Lemma stop_or_kill_quiet_fallback_calls (env : environment)
    (container : Container) (w : world) (e : exn) :
  fails env (calls w) (ContainerStop (id container) 15) = Some e ->
  calls (fst (stop_or_kill env container LoggerQuiet w))
  = calls (fst (kill_fallback env container discard discard
                  (World (calls w ++ [ContainerStop (id container) 15]) []))).
Proof. intros H. run_world. rewrite H. simpl. split_cases; reflexivity. Qed.

(** The cleanup is its two stages in sequence. *)
Lemma cleanup_container_stages (env : environment) (container : Container)
    (logger : logger_arg) (w : world) :
  snd (cleanup_container env (Some container) logger w)
  = match snd (stop_or_kill env container logger w) with
    | Returns _ =>
        snd (force_remove env container logger
               (fst (stop_or_kill env container logger w)))
    | Raises e => Raises e
    end.
Proof.
  unfold cleanup_container, mbind, M_bind.
  destruct (stop_or_kill env container logger w) as [w1 [[]|e]]; reflexivity.
Qed.

(** C5, amended: with [logger="quiet"], [cleanup_image] and
    [cleanup_container] write nothing, and a failure is re-raised, not
    swallowed: a failed image removal, a failed container removal (after
    a stop that succeeded or after a kill fallback that completed) and a
    failed kill fallback each reach the caller. Only a failed graceful
    stop is absorbed: the kill fallback runs, and if it and the removal
    go through, the call returns normally, as it does when nothing
    fails. *)
Theorem cleanup_quiet (env : environment) (image_id : string)
    (container : Container) (w : world) :
  let stop := ContainerStop (id container) 15 in
  let remove := ContainerRemove (id container) true in
  let fallback :=
    kill_fallback env container discard discard (World (calls w ++ [stop]) []) in
  (forall rm_image,
     output (fst (cleanup_image env image_id rm_image LoggerQuiet w)) = output w)
  /\ (forall handle,
        output (fst (cleanup_container env handle LoggerQuiet w)) = output w)
  /\ (forall e, fails env (calls w) (ImagesRemove image_id true) = Some e ->
        snd (cleanup_image env image_id true LoggerQuiet w) = Raises e)
  /\ (fails env (calls w) (ImagesRemove image_id true) = None ->
      snd (cleanup_image env image_id true LoggerQuiet w) = Returns tt)
  /\ (forall e, fails env (calls w) stop = None ->
        fails env (calls w ++ [stop]) remove = Some e ->
        snd (cleanup_container env (Some container) LoggerQuiet w) = Raises e)
  /\ (fails env (calls w) stop = None ->
      fails env (calls w ++ [stop]) remove = None ->
      snd (cleanup_container env (Some container) LoggerQuiet w) = Returns tt)
  /\ (forall e e2, fails env (calls w) stop = Some e ->
        snd fallback = Raises e2 ->
        snd (cleanup_container env (Some container) LoggerQuiet w) = Raises e2)
  /\ (forall e e3, fails env (calls w) stop = Some e ->
        snd fallback = Returns tt ->
        fails env (calls (fst fallback)) remove = Some e3 ->
        snd (cleanup_container env (Some container) LoggerQuiet w) = Raises e3)
  /\ (forall e, fails env (calls w) stop = Some e ->
        snd fallback = Returns tt ->
        fails env (calls (fst fallback)) remove = None ->
        snd (cleanup_container env (Some container) LoggerQuiet w) = Returns tt).
Proof.
  intros stop remove fallback.
  split; [intros rm_image; apply cleanup_image_quiet_output|].
  split; [intros handle; apply cleanup_container_quiet_output|].
  split; [intros e H; rewrite (cleanup_image_failure_quiet _ _ _ _ H); reflexivity|].
  split; [intros H; run_world; rewrite H; reflexivity|].
  split; [|split; [|split; [|split]]].
  - intros e Hstop Hrm. rewrite cleanup_container_stages.
    rewrite (stop_or_kill_stopped _ _ _ _ Hstop).
    apply force_remove_quiet_failure.
    rewrite (stop_or_kill_stopped_calls _ _ _ _ Hstop). exact Hrm.
  - intros Hstop Hrm. rewrite cleanup_container_stages.
    rewrite (stop_or_kill_stopped _ _ _ _ Hstop).
    apply force_remove_quiet_success.
    rewrite (stop_or_kill_stopped_calls _ _ _ _ Hstop). exact Hrm.
  - intros e e2 Hstop Hfb. rewrite cleanup_container_stages.
    rewrite (stop_or_kill_fallback _ _ _ _ _ Hstop (or_intror eq_refl)).
    fold stop fallback. rewrite Hfb. reflexivity.
  - intros e e3 Hstop Hfb Hrm. rewrite cleanup_container_stages.
    rewrite (stop_or_kill_fallback _ _ _ _ _ Hstop (or_intror eq_refl)).
    fold stop fallback. rewrite Hfb.
    apply force_remove_quiet_failure.
    rewrite (stop_or_kill_quiet_fallback_calls _ _ _ _ Hstop). exact Hrm.
  - intros e Hstop Hfb Hrm. rewrite cleanup_container_stages.
    rewrite (stop_or_kill_fallback _ _ _ _ _ Hstop (or_intror eq_refl)).
    fold stop fallback. rewrite Hfb.
    apply force_remove_quiet_success.
    rewrite (stop_or_kill_quiet_fallback_calls _ _ _ _ Hstop). exact Hrm.
Qed.

Lemma cleanup_quiet_witness :
  snd (cleanup_image removal_refused "img" true LoggerQuiet untouched)
  = Raises (api_error "image is in use")
  /\ snd (cleanup_container container_removal_refused (Some sample_container)
            LoggerQuiet untouched)
     = Raises (api_error "removal in progress")
  /\ snd (cleanup_container stop_and_inspect_refused (Some sample_container)
            LoggerQuiet untouched)
     = Raises (api_error "no such container")
  /\ snd (cleanup_container stop_and_removal_refused (Some sample_container)
            LoggerQuiet untouched)
     = Raises (api_error "removal in progress")
  /\ snd (cleanup_container stop_refused (Some sample_container)
            LoggerQuiet untouched)
     = Returns tt
  /\ snd (cleanup_container all_succeed (Some sample_container)
            LoggerQuiet untouched)
     = Returns tt
  /\ snd (cleanup_image all_succeed "img" true LoggerQuiet untouched)
     = Returns tt.
Proof.
  split; [|split; [|split; [|split; [|split; [|split]]]]].
  - apply (proj1 (proj2 (proj2
      (cleanup_quiet removal_refused "img" sample_container untouched)))).
    reflexivity.
  - apply (proj1 (proj2 (proj2 (proj2 (proj2
      (cleanup_quiet container_removal_refused "img" sample_container
         untouched))))));
      reflexivity.
  - apply (proj1 (proj2 (proj2 (proj2 (proj2 (proj2 (proj2
      (cleanup_quiet stop_and_inspect_refused "img" sample_container
         untouched)))))))
      (api_error "cannot stop container"));
      reflexivity.
  - apply (proj1 (proj2 (proj2 (proj2 (proj2 (proj2 (proj2 (proj2
      (cleanup_quiet stop_and_removal_refused "img" sample_container
         untouched))))))))
      (api_error "cannot stop container"));
      reflexivity.
  - apply (proj2 (proj2 (proj2 (proj2 (proj2 (proj2 (proj2 (proj2
      (cleanup_quiet stop_refused "img" sample_container untouched))))))))
      (api_error "cannot stop container"));
      reflexivity.
  - apply (proj1 (proj2 (proj2 (proj2 (proj2 (proj2
      (cleanup_quiet all_succeed "img" sample_container untouched)))))));
      reflexivity.
  - apply (proj1 (proj2 (proj2 (proj2
      (cleanup_quiet all_succeed "img" sample_container untouched))))).
    reflexivity.
Defined.

(** ** exec_run_with_timeout *)

Lemma append_assoc (s t u : string) : (s +:+ t) +:+ u = s +:+ (t +:+ u).
Proof.
  induction s as [|c s IH]; [reflexivity|].
  rewrite !append_cons, IH. reflexivity.
Qed.

Section Worker.

Variable api : exec_api.
Variable container : Container.
Variable cmd : string.

Local Abbreviation after := (worker_after api container cmd).
Local Abbreviation step := (run_command api container cmd).

(** The dispatch does one thing. *)
Lemma dispatch_returns_raises r e :
  dispatch_returns api container cmd r ->
  dispatch_raises api container cmd e -> False.
Proof.
  intros [d [i [Hc [Hi Hs]]]] [He | [[d' [Hc' [Hi' _]]] | [d' [i' [Hc' [Hi' Hs']]]]]];
    congruence.
Qed.

Lemma dispatch_returns_unique r r' :
  dispatch_returns api container cmd r ->
  dispatch_returns api container cmd r' -> r = r'.
Proof. intros [d [i [Hc [Hi Hs]]]] [d' [i' [Hc' [Hi' Hs']]]]. congruence. Qed.

Lemma dispatch_raises_unique e e' :
  dispatch_raises api container cmd e ->
  dispatch_raises api container cmd e' -> e = e'.
Proof.
  intros [He | [[d [Hc [Hi ->]]] | [d [i [Hc [Hi Hs]]]]]]
         [He' | [[d' [Hc' [Hi' ->]]] | [d' [i' [Hc' [Hi' Hs']]]]]];
    congruence.
Qed.

(** Every state the worker reaches is consistent with the dispatch. *)
Lemma step_consistent t :
  consistent api container cmd t -> consistent api container cmd (step t).
Proof.
  unfold consistent, run_command, dispatch_returns, dispatch_raises.
  destruct t as [[|i| |] [res eid exc]]; simpl.
  - intros [= -> -> ->].
    destruct (exec_create api (id container) cmd) as [d|e]; simpl.
    + destruct (d !! "Id") as [i|] eqn:Hi; simpl.
      * split; [exists d; auto | auto].
      * right. split; [reflexivity|]. exists (KeyError "Id").
        split; [reflexivity|]. right; left. exists d. auto.
    + right. split; [reflexivity|]. exists e. auto.
  - intros [[d [Hc Hi]] [-> ->]].
    destruct (exec_start api i) as [r|e] eqn:Hs; simpl.
    + left. split; [reflexivity|]. exists r. split; [reflexivity|].
      exists d, i. auto.
    + right. split; [reflexivity|]. exists e. split; [reflexivity|].
      right; right. exists d, i. auto.
  - tauto.
  - tauto.
Qed.

Lemma worker_consistent n : consistent api container cmd (after n).
Proof.
  induction n as [|n IH]; [reflexivity|]. simpl. apply step_consistent, IH.
Qed.

(** Past the dispatch the variables no longer change, and an ended
    thread stays ended. *)
Lemma step_settled t :
  dispatching t = false ->
  dispatching (step t) = false /\ vars (step t) = vars t
  /\ (is_alive t = false -> is_alive (step t) = false).
Proof.
  unfold dispatching, is_alive, run_command.
  destruct t as [[|i| |] v]; simpl; try discriminate; auto.
Qed.

Lemma worker_settled n k :
  dispatching (after n) = false ->
  dispatching (after (n + k)) = false
  /\ vars (after (n + k)) = vars (after n)
  /\ (is_alive (after n) = false -> is_alive (after (n + k)) = false).
Proof.
  intros Hn. induction k as [|k [IHd [IHv IHa]]].
  - rewrite Nat.add_0_r. auto.
  - rewrite Nat.add_succ_r. simpl.
    destruct (step_settled (after (n + k)) IHd) as [Hd [Hv Ha]].
    split; [assumption|]. split; [congruence | auto].
Qed.

(** A worker inside the dispatch was inside it at every earlier time. *)
Lemma worker_dispatching_before n k :
  dispatching (after (n + k)) = true -> dispatching (after n) = true.
Proof.
  intros H. destruct (dispatching (after n)) eqn:Hn; [reflexivity|].
  destruct (worker_settled n k Hn) as [Hd _]. congruence.
Qed.

(** Inside the dispatch the thread is alive and nothing is recorded. *)
Lemma dispatching_alive n :
  dispatching (after n) = true ->
  is_alive (after n) = true /\ exception (vars (after n)) = None.
Proof.
  pose proof (worker_consistent n) as Hc. revert Hc.
  unfold consistent, dispatching, is_alive.
  destruct (after n) as [[|i| |] [res eid exc]]; simpl; try discriminate.
  - intros [= -> -> ->] _. split; reflexivity.
  - intros [_ [_ ->]] _. split; reflexivity.
Qed.

Lemma ended_not_dispatching n :
  is_alive (after n) = false -> dispatching (after n) = false.
Proof.
  unfold is_alive, dispatching. destruct (pc (after n)); congruence.
Qed.

(** Past a dispatch that returns [r], the variables hold [r] and no
    exception; past one that raises [e], they hold [e] and no result. *)
Lemma settled_returns n r :
  dispatching (after n) = false ->
  dispatch_returns api container cmd r ->
  exception (vars (after n)) = None /\ exec_result (vars (after n)) = Some r.
Proof.
  intros Hd Hr. pose proof (worker_consistent n) as Hc. revert Hd Hc.
  unfold consistent, dispatching.
  destruct (pc (after n)); try discriminate;
    intros _ [[Hexc [r' [Hres Hr']]] | [_ [e [_ He]]]];
    try (exfalso; eapply dispatch_returns_raises; eassumption);
    rewrite (dispatch_returns_unique _ _ Hr Hr'); auto.
Qed.

Lemma settled_raises n e :
  dispatching (after n) = false ->
  dispatch_raises api container cmd e ->
  exception (vars (after n)) = Some e.
Proof.
  intros Hd He. pose proof (worker_consistent n) as Hc. revert Hd Hc.
  unfold consistent, dispatching.
  destruct (pc (after n)); try discriminate;
    intros _ [[_ [r [_ Hr]]] | [_ [e' [Hexc He']]]];
    try (exfalso; eapply dispatch_returns_raises; eassumption);
    rewrite (dispatch_raises_unique _ _ He He'); auto.
Qed.

(** A recorded exception is one the dispatch raised. *)
Lemma recorded_raised n e :
  exception (vars (after n)) = Some e -> dispatch_raises api container cmd e.
Proof.
  pose proof (worker_consistent n) as Hc. revert Hc. unfold consistent.
  destruct (pc (after n)).
  - intros ->. discriminate.
  - intros [_ [_ ->]]. discriminate.
  - intros [[-> _] | [_ [e' [-> He']]]]; [discriminate | congruence].
  - intros [[-> _] | [_ [e' [-> He']]]]; [discriminate | congruence].
Qed.

End Worker.

Lemma timeout_message (cmd : string) (timeout : Z) :
  timeout_error cmd timeout
    (TimeoutError ("Command '" +:+ cmd +:+ "' timed out after "
                   +:+ pretty timeout +:+ " seconds")).
Proof.
  eexists. split; [reflexivity|]. split.
  - exists "Command '", ("' timed out after " +:+ pretty timeout +:+ " seconds").
    reflexivity.
  - exists ("Command '" +:+ cmd +:+ "' timed out after "), " seconds".
    rewrite !append_assoc. reflexivity.
Qed.

(** Two runs in which [join] times out with the worker inside
    [exec_start]. In the first the worker ends before the caller asks
    whether it is alive: the deadline has elapsed before the worker
    finished, and the call returns the result instead of raising the
    timeout error. In the second the dispatch raises, but only after the
    caller's checks: the caller gets the timeout error, not the exception
    of the dispatch. *)
Lemma exec_run_with_timeout_late_finish :
  (timed_out_at_join api_done late_finish sample_container "ls"
   /\ exec_run_with_timeout cpython_linux api_done late_finish sample_container "ls" 60
      = Returns (Some "done")
   /\ ~ (exists e,
          exec_run_with_timeout cpython_linux api_done late_finish sample_container "ls" 60
          = Raises e
          /\ timeout_error "ls" 60 e))
  /\ (dispatch_raises api_broken sample_container "ls" (api_error "exec failed")
      /\ exec_run_with_timeout cpython_linux api_broken stuck sample_container "ls" 60
         = Raises (TimeoutError "Command 'ls' timed out after 60 seconds")
      /\ exec_run_with_timeout cpython_linux api_broken stuck sample_container "ls" 60
         <> Raises (api_error "exec failed")).
Proof.
  split.
  - split; [reflexivity|]. split; [reflexivity|].
    intros [e [H _]]. vm_compute in H. discriminate.
  - split; [|split; [reflexivity | vm_compute; discriminate]].
    right; right. exists {["Id" := "e1"]}, "e1". repeat split; reflexivity.
Qed.

(** C3, amended: for an integer timeout that [thread.join] accepts (at
    most [TIMEOUT_MAX]) the call has three outcomes, decided by the state
    of the worker when the caller reads it after the wait. (a) If the
    worker thread has ended when the caller checks it, in particular when
    it ended before the deadline, and the dispatch returned, its raw
    result is returned. (b) If the dispatch has raised when the caller
    tests for an exception, in particular before the deadline, that same
    exception is raised. (c) If the worker thread is still alive when the
    caller checks it after the wait and no exception was recorded, in
    particular when it is still inside the dispatch, a [TimeoutError] is
    raised whose message contains the command text and the timeout in
    seconds. So a worker that finishes between the end of the wait and
    the caller's check is not timed out: by (a) its result is returned.
    In every case the call returns, raises an exception of the dispatch,
    or raises that timeout error. For a timeout above [TIMEOUT_MAX] the
    [OverflowError] of [join] is raised. *)
Theorem exec_run_with_timeout_outcomes (py : threading) (api : exec_api)
    (sched : schedule) (container : Container) (cmd : string) (timeout : Z) :
  let at_join := worker_after api container cmd (before_join sched) in
  let at_test :=
    worker_after api container cmd
      (before_join sched + before_exception_test sched) in
  let at_check :=
    worker_after api container cmd
      (before_join sched + before_exception_test sched + before_is_alive sched) in
  let result := exec_run_with_timeout py api sched container cmd timeout in
  ((timeout <= TIMEOUT_MAX py)%Z ->
   (forall r, dispatch_returns api container cmd r ->
      ended_at_join api sched container cmd ->
      result = Returns (Some r))
   /\ (forall r, dispatch_returns api container cmd r ->
         is_alive at_check = false ->
         result = Returns (Some r))
   /\ (forall e, dispatch_raises api container cmd e ->
         dispatching at_join = false ->
         result = Raises e)
   /\ (forall e, dispatch_raises api container cmd e ->
         dispatching at_test = false ->
         result = Raises e)
   /\ (dispatching at_check = true ->
         exists e, result = Raises e /\ timeout_error cmd timeout e)
   /\ (exception (vars at_test) = None ->
       is_alive at_check = true ->
       exists e, result = Raises e /\ timeout_error cmd timeout e)
   /\ ((exists r, result = Returns r)
       \/ (exists e, result = Raises e /\ dispatch_raises api container cmd e)
       \/ (exists e, result = Raises e /\ timeout_error cmd timeout e)))
  /\ ((TIMEOUT_MAX py < timeout)%Z ->
      result = Raises (OverflowError (overflow_message py))).
Proof.
  intros at_join at_test at_check result.
  subst at_join at_test at_check result.
  unfold exec_run_with_timeout, ended_at_join.
  set (j := before_join sched). set (x := before_exception_test sched).
  set (a := before_is_alive sched). set (z := before_return sched).
  split.
  2: { intros Hbig. apply Z.ltb_lt in Hbig. rewrite Hbig. reflexivity. }
  intros Hok. replace (TIMEOUT_MAX py <? timeout)%Z with false
    by (symmetry; apply Z.ltb_ge; exact Hok).
  split; [|split; [|split; [|split; [|split; [|split]]]]].
  - intros r Hr Hend.
    pose proof (ended_not_dispatching api container cmd j Hend) as Hd.
    destruct (settled_returns api container cmd j r Hd Hr) as [Hexc Hres].
    destruct (worker_settled api container cmd j x Hd) as [_ [Hv1 _]].
    destruct (worker_settled api container cmd j (x + a) Hd) as [_ [_ Ha]].
    destruct (worker_settled api container cmd j (x + (a + z)) Hd) as [_ [Hv3 _]].
    rewrite <- !Nat.add_assoc.
    rewrite Hv1, Hexc, (Ha Hend), Hv3, Hres. reflexivity.
  - intros r Hr Hend.
    pose proof (ended_not_dispatching api container cmd (j + x + a) Hend) as Hd.
    destruct (settled_returns api container cmd (j + x + a) r Hd Hr) as [_ Hres].
    destruct (worker_settled api container cmd (j + x + a) z Hd) as [_ [Hv _]].
    destruct (exception (vars (worker_after api container cmd (j + x))))
      as [e|] eqn:Hexc.
    + exfalso. eapply dispatch_returns_raises; [exact Hr|].
      eapply recorded_raised. exact Hexc.
    + rewrite Hend, Hv, Hres. reflexivity.
  - intros e He Hd.
    destruct (worker_settled api container cmd j x Hd) as [_ [Hv1 _]].
    rewrite Hv1, (settled_raises api container cmd j e Hd He). reflexivity.
  - intros e He Hd.
    rewrite (settled_raises api container cmd (j + x) e Hd He). reflexivity.
  - intros Hd.
    pose proof (worker_dispatching_before api container cmd (j + x) a Hd) as Hd1.
    destruct (dispatching_alive api container cmd (j + x) Hd1) as [_ ->].
    destruct (dispatching_alive api container cmd (j + x + a) Hd) as [-> _].
    eexists. split; [reflexivity | apply timeout_message].
  - intros -> ->.
    eexists. split; [reflexivity | apply timeout_message].
  - destruct (exception (vars (worker_after api container cmd (j + x)))) as [e|] eqn:Hexc.
    + right; left. exists e. split; [reflexivity|].
      eapply recorded_raised. exact Hexc.
    + destruct (is_alive (worker_after api container cmd (j + x + a))).
      * right; right. eexists. split; [reflexivity | apply timeout_message].
      * left. eexists. reflexivity.
Qed.

Lemma exec_run_with_timeout_outcomes_witness :
  exec_run_with_timeout cpython_linux api_done prompt sample_container "ls" 60
  = Returns (Some "done")
  /\ exec_run_with_timeout cpython_linux api_done late_finish sample_container
       "ls" 60
     = Returns (Some "done")
  /\ exec_run_with_timeout cpython_linux api_broken prompt sample_container "ls" 60
     = Raises (api_error "exec failed")
  /\ (exists e, exec_run_with_timeout cpython_linux api_done stuck sample_container "ls" 60
                = Raises e
                /\ timeout_error "ls" 60 e)
  /\ exec_run_with_timeout cpython_linux api_done prompt sample_container "ls"
       10000000000
     = Raises (OverflowError "timeout value is too large").
Proof.
  assert (60 <= TIMEOUT_MAX cpython_linux)%Z as Hok by (simpl; lia).
  split; [|split; [|split; [|split]]].
  - apply (proj1 (proj1 (exec_run_with_timeout_outcomes cpython_linux api_done
                           prompt sample_container "ls" 60) Hok)).
    + exists {["Id" := "e1"]}, "e1". repeat split; reflexivity.
    + reflexivity.
  - apply (proj1 (proj2 (proj1 (exec_run_with_timeout_outcomes cpython_linux
                                  api_done late_finish sample_container "ls" 60)
                           Hok))).
    + exists {["Id" := "e1"]}, "e1". repeat split; reflexivity.
    + reflexivity.
  - apply (proj1 (proj2 (proj2 (proj1 (exec_run_with_timeout_outcomes
                                         cpython_linux api_broken prompt
                                         sample_container "ls" 60) Hok)))).
    + right; right. exists {["Id" := "e1"]}, "e1". repeat split; reflexivity.
    + reflexivity.
  - apply (proj1 (proj2 (proj2 (proj2 (proj2 (proj1
             (exec_run_with_timeout_outcomes cpython_linux api_done stuck
                sample_container "ls" 60) Hok)))))).
    reflexivity.
  - apply (proj2 (exec_run_with_timeout_outcomes cpython_linux api_done prompt
                    sample_container "ls" 10000000000)).
    simpl. lia.
Defined.

(** * Part III: further properties of the module *)

(** ** should_remove: the cache levels, the flag and the prior images *)

(** X1: the cache levels are nested: what is removed under "env" is
    removed under "base", and what is removed under "base" is removed
    under "none". *)
Theorem should_remove_cache_nested (image_name : string) (clean : bool)
    (prior_images : gset string) :
  (should_remove image_name "env" clean prior_images = true ->
   should_remove image_name "base" clean prior_images = true)
  /\ (should_remove image_name "base" clean prior_images = true ->
      should_remove image_name "none" clean prior_images = true).
Proof.
  split; intros H; apply should_remove_true in H as [Ht Hn];
    apply should_remove_true; (split; [|exact Hn]);
    unfold tier_eligible in *;
    intuition (try discriminate; auto).
Qed.

Lemma should_remove_cache_nested_witness :
  should_remove "sweb.eval.x" "base" false ∅ = true
  /\ should_remove "sweb.env.x" "none" false ∅ = true.
Proof.
  split.
  - apply (proj1 (should_remove_cache_nested "sweb.eval.x" false ∅)).
    reflexivity.
  - apply (proj2 (should_remove_cache_nested "sweb.env.x" false ∅)).
    reflexivity.
Defined.

(** X2: under a cache level other than "none", "base" and "env" (such as
    "full") no image is removed, whatever its name, the flag and the
    prior images. *)
Theorem should_remove_other_level (image_name cache : string) (clean : bool)
    (prior_images : gset string) :
  cache <> "none" -> cache <> "base" -> cache <> "env" ->
  should_remove image_name cache clean prior_images = false.
Proof.
  intros Hnone Hbase Henv.
  destruct (should_remove image_name cache clean prior_images) eqn:H;
    [|reflexivity].
  apply should_remove_true in H as [Ht _]. unfold tier_eligible in Ht. tauto.
Qed.

Lemma should_remove_other_level_witness :
  should_remove "sweb.eval.x" "full" true ∅ = false.
Proof.
  apply (should_remove_other_level "sweb.eval.x" "full" true ∅); discriminate.
Defined.

(** X3: the [clean] flag matters for the images that existed before the
    run only: an image that is not among the prior images gets the same
    answer with the flag on and off, and an image that is among them is
    kept when the flag is off. *)
Theorem should_remove_clean_flag (image_name cache : string) (clean : bool)
    (prior_images : gset string) :
  (image_name ∉ prior_images ->
   should_remove image_name cache clean prior_images
   = should_remove image_name cache true prior_images)
  /\ (image_name ∈ prior_images ->
      should_remove image_name cache false prior_images = false).
Proof.
  split.
  - intros Hnew.
    destruct (should_remove image_name cache true prior_images) eqn:Htrue.
    + apply should_remove_true in Htrue as [Ht _].
      apply should_remove_true. split; [exact Ht | right; exact Hnew].
    + destruct (should_remove image_name cache clean prior_images) eqn:H;
        [|reflexivity].
      apply should_remove_true in H as [Ht _].
      assert (should_remove image_name cache true prior_images = true) as Hc
        by (apply should_remove_true; split; [exact Ht | left; reflexivity]).
      congruence.
  - intros Hin.
    destruct (should_remove image_name cache false prior_images) eqn:H;
      [|reflexivity].
    apply should_remove_true in H as [_ [Hc | Hn]]; [discriminate | contradiction].
Qed.

Lemma should_remove_clean_flag_witness :
  should_remove "sweb.env.x" "base" false ∅
  = should_remove "sweb.env.x" "base" true ∅
  /\ should_remove "sweb.env.x" "none" false {["sweb.env.x"]} = false.
Proof.
  split.
  - apply (proj1 (should_remove_clean_flag "sweb.env.x" "base" false ∅)).
    apply not_elem_of_empty.
  - apply (proj2 (should_remove_clean_flag "sweb.env.x" "none" false
                    {["sweb.env.x"]})).
    apply elem_of_singleton. reflexivity.
Defined.

(** ** cleanup_image: every mode, both results of the removal *)

Lemma cleanup_image_calls (env : environment) (image_id : string)
    (logger : logger_arg) (w : world) :
  calls (fst (cleanup_image env image_id true logger w))
  = calls w ++ [ImagesRemove image_id true].
Proof. destruct logger; run_world; split_cases; reflexivity. Qed.

Lemma cleanup_image_success_quiet (env : environment) (image_id : string)
    (w : world) :
  fails env (calls w) (ImagesRemove image_id true) = None ->
  cleanup_image env image_id true LoggerQuiet w
  = (World (calls w ++ [ImagesRemove image_id true]) (output w), Returns tt).
Proof. intros H. run_world. rewrite H. reflexivity. Qed.

(** X4: asked to remove, [cleanup_image] makes one call to the engine, the
    forced removal of that image, in every mode; and it raises [e]
    exactly when that call failed with [e] and the logger is [None] or
    ["quiet"]. *)
Theorem cleanup_image_raises_iff (env : environment) (image_id : string)
    (logger : logger_arg) (w : world) (e : exn) :
  calls (fst (cleanup_image env image_id true logger w))
  = calls w ++ [ImagesRemove image_id true]
  /\ (snd (cleanup_image env image_id true logger w) = Raises e
      <-> fails env (calls w) (ImagesRemove image_id true) = Some e
          /\ (logger = LoggerNone \/ logger = LoggerQuiet)).
Proof.
  split; [apply cleanup_image_calls|].
  destruct logger as [| |l]; run_world;
    destruct (fails env (calls w) (ImagesRemove image_id true)) as [e'|];
    simpl; split; try discriminate.
  - intros [= ->]. auto.
  - intros [[= ->] _]. reflexivity.
  - intros [H _]. discriminate.
  - intros [= ->]. auto.
  - intros [[= ->] _]. reflexivity.
  - intros [H _]. discriminate.
  - intros [_ [H | H]]; discriminate.
  - intros [H _]. discriminate.
Qed.

(** X5: when the removal goes through, [cleanup_image] returns normally
    in every mode, and the two progress lines are printed with no logger,
    dropped in the quiet mode, and handed to the logger object
    otherwise. *)
Theorem cleanup_image_success (env : environment) (image_id : string)
    (w : world) :
  fails env (calls w) (ImagesRemove image_id true) = None ->
  cleanup_image env image_id true LoggerNone w
  = (World (calls w ++ [ImagesRemove image_id true])
           (output w
            ++ [Printed ("Attempting to remove image " +:+ image_id +:+ "...");
                Printed ("Image " +:+ image_id +:+ " removed.")]),
     Returns tt)
  /\ cleanup_image env image_id true LoggerQuiet w
     = (World (calls w ++ [ImagesRemove image_id true]) (output w), Returns tt)
  /\ (forall l,
        cleanup_image env image_id true (LoggerObject l) w
        = (World (calls w ++ [ImagesRemove image_id true])
                 (output w
                  ++ [LoggerInfo l ("Attempting to remove image " +:+ image_id +:+ "...");
                      LoggerInfo l ("Image " +:+ image_id +:+ " removed.")]),
           Returns tt)).
Proof.
  intros H. split; [|split; [|intros l]].
  - run_world. rewrite H. simpl. rewrite <- app_assoc. reflexivity.
  - apply cleanup_image_success_quiet. exact H.
  - run_world. rewrite H. simpl. rewrite <- app_assoc. reflexivity.
Qed.

Lemma cleanup_image_success_witness :
  cleanup_image all_succeed "img" true LoggerNone untouched
  = (World [ImagesRemove "img" true]
           [Printed "Attempting to remove image img...";
            Printed "Image img removed."],
     Returns tt).
Proof.
  apply (proj1 (cleanup_image_success all_succeed "img" untouched eq_refl)).
Defined.

(** ** cleanup_container: the calls it makes *)

Ltac run_cleanup :=
  unfold cleanup_container, mbind, M_bind; run_world; split_cases.

Lemma stop_or_kill_logger_output (env : environment) (container : Container)
    (l : string) (w : world) :
  exists lines,
    output (fst (stop_or_kill env container (LoggerObject l) w))
    = output w ++ lines
    /\ logged_to l lines
    /\ (forall e,
          fails env (calls w) (ContainerStop (id container) 15) = Some e ->
          In (LoggerInfo l (stop_failure_message container e)) lines)
    /\ (forall e e2,
          fails env (calls w) (ContainerStop (id container) 15) = Some e ->
          snd (kill_fallback env container discard discard
                 (World (calls w ++ [ContainerStop (id container) 15]) []))
          = Raises e2 ->
          In (LoggerInfo l (kill_failure_message env container e2)) lines).
Proof.
  unfold logged_to, stop_failure_message, kill_failure_message.
  run_world; split_cases; repeat rewrite <- app_assoc; simpl;
    eexists; (split; [reflexivity|]);
    (split; [repeat constructor; eexists; reflexivity|]);
    split; intros; simplify_eq; simpl; auto 10.
Qed.

Lemma force_remove_logger_output (env : environment) (container : Container)
    (l : string) (w : world) :
  exists lines,
    output (fst (force_remove env container (LoggerObject l) w))
    = output w ++ lines
    /\ logged_to l lines
    /\ (forall e,
          fails env (calls w) (ContainerRemove (id container) true) = Some e ->
          In (LoggerInfo l (removal_failure_message env container e)) lines).
Proof.
  unfold logged_to, removal_failure_message.
  run_world; split_cases; repeat rewrite <- app_assoc; simpl;
    eexists; (split; [reflexivity|]);
    (split; [repeat constructor; eexists; reflexivity|]);
    intros; simplify_eq; simpl; auto 10.
Qed.

(** X6: with a logger object neither cleanup raises, and every failure is
    logged: a failed image removal, a failed stop, a failed kill fallback
    and a failed container removal each leave their message with the
    logger, all the lines written go to that logger, and the call returns
    normally. *)
Theorem cleanup_with_logger_returns (env : environment) (l : string)
    (w : world) :
  (forall image_id rm_image,
     snd (cleanup_image env image_id rm_image (LoggerObject l) w) = Returns tt)
  /\ (forall container,
        snd (cleanup_container env container (LoggerObject l) w) = Returns tt)
  /\ (forall image_id e,
        fails env (calls w) (ImagesRemove image_id true) = Some e ->
        output (fst (cleanup_image env image_id true (LoggerObject l) w))
        = output w
          ++ [LoggerInfo l ("Attempting to remove image " +:+ image_id +:+ "...");
              LoggerInfo l ("Failed to remove image " +:+ image_id +:+ ": "
                            +:+ exn_msg e +:+ LF +:+ format_exc env e)])
  /\ (forall container,
        let stop := ContainerStop (id container) 15 in
        let remove := ContainerRemove (id container) true in
        let fallback :=
          kill_fallback env container discard discard
            (World (calls w ++ [stop]) []) in
        let stage := stop_or_kill env container (LoggerObject l) w in
        exists lines,
          output (fst (cleanup_container env (Some container) (LoggerObject l) w))
          = output w ++ lines
          /\ logged_to l lines
          /\ (forall e, fails env (calls w) stop = Some e ->
                In (LoggerInfo l (stop_failure_message container e)) lines)
          /\ (forall e e2, fails env (calls w) stop = Some e ->
                snd fallback = Raises e2 ->
                In (LoggerInfo l (kill_failure_message env container e2)) lines)
          /\ (forall e, fails env (calls (fst stage)) remove = Some e ->
                In (LoggerInfo l (removal_failure_message env container e))
                   lines)).
Proof.
  split; [|split; [|split]].
  - intros image_id [|]; run_world; split_cases; reflexivity.
  - intros [container|]; [|reflexivity]. run_cleanup; reflexivity.
  - intros image_id e H. rewrite (cleanup_image_failure_logger _ _ _ _ _ H).
    reflexivity.
  - intros container stop remove fallback stage. subst stop remove fallback stage.
    destruct (stop_or_kill_logger_output env container l w)
      as [lines1 [Hout1 [Hlog1 [Hstop Hkill]]]].
    pose proof (stop_or_kill_logger env container l w) as Hret.
    destruct (force_remove_logger_output env container l
                (fst (stop_or_kill env container (LoggerObject l) w)))
      as [lines2 [Hout2 [Hlog2 Hrm]]].
    exists (lines1 ++ lines2).
    unfold cleanup_container, mbind, M_bind.
    destruct (stop_or_kill env container (LoggerObject l) w) as [w1 r1];
      simpl in *. subst r1.
    rewrite Hout2, Hout1, <- app_assoc.
    split; [reflexivity|]. split; [apply Forall_app; split; assumption|].
    split; [|split].
    + intros e H. apply in_or_app. left. eapply Hstop. exact H.
    + intros e e2 H Hfb. apply in_or_app. left. eapply Hkill; eassumption.
    + intros e H. apply in_or_app. right. apply Hrm. exact H.
Qed.

Lemma cleanup_with_logger_returns_witness :
  output (fst (cleanup_image removal_refused "img" true (LoggerObject "run")
                 untouched))
  = [LoggerInfo "run" "Attempting to remove image img...";
     LoggerInfo "run"
       ("Failed to remove image img: image is in use" +:+ LF
        +:+ "Traceback (most recent call last): APIError")]
  /\ exists lines,
       output (fst (cleanup_container all_refused (Some sample_container)
                      (LoggerObject "run") untouched))
       = output untouched ++ lines
       /\ In (LoggerInfo "run"
                (stop_failure_message sample_container (api_error "engine down")))
            lines
       /\ In (LoggerInfo "run"
                (kill_failure_message all_refused sample_container
                   (api_error "engine down")))
            lines
       /\ In (LoggerInfo "run"
                (removal_failure_message all_refused sample_container
                   (api_error "engine down")))
            lines.
Proof.
  split.
  - apply (proj1 (proj2 (proj2 (cleanup_with_logger_returns removal_refused
                                  "run" untouched)))
             "img" (api_error "image is in use")).
    reflexivity.
  - destruct (proj2 (proj2 (proj2 (cleanup_with_logger_returns all_refused
                                     "run" untouched)))
                sample_container)
      as [lines [Hout [_ [Hstop [Hkill Hrm]]]]].
    exists lines. split; [exact Hout|]. split; [|split].
    + apply (Hstop (api_error "engine down")). reflexivity.
    + apply (Hkill (api_error "engine down") (api_error "engine down"));
        reflexivity.
    + apply (Hrm (api_error "engine down")). reflexivity.
Defined.

(** X7: when the graceful stop succeeds, [cleanup_container] makes two
    calls, the stop with a timeout of 15 seconds and the forced removal:
    the container is not inspected and no process is killed. It then
    raises [e] exactly when the removal failed with [e] and the logger is
    [None] or ["quiet"]. *)
Theorem cleanup_container_stopped (env : environment) (container : Container)
    (logger : logger_arg) (w : world) (e : exn) :
  let stop := ContainerStop (id container) 15 in
  let remove := ContainerRemove (id container) true in
  fails env (calls w) stop = None ->
  calls (fst (cleanup_container env (Some container) logger w))
  = calls w ++ [stop; remove]
  /\ (snd (cleanup_container env (Some container) logger w) = Raises e
      <-> fails env (calls w ++ [stop]) remove = Some e
          /\ (logger = LoggerNone \/ logger = LoggerQuiet)).
Proof.
  intros stop remove Hstop. subst stop remove.
  destruct logger as [| |l]; unfold cleanup_container, mbind, M_bind;
    run_world; rewrite Hstop; simpl;
    destruct (fails env (calls w ++ [ContainerStop (id container) 15])
                (ContainerRemove (id container) true)) as [e'|];
    simpl; rewrite <- app_assoc; (split; [reflexivity|]);
    split; try discriminate.
  - intros [= ->]. auto.
  - intros [[= ->] _]. reflexivity.
  - intros [H _]. discriminate.
  - intros [= ->]. auto.
  - intros [[= ->] _]. reflexivity.
  - intros [H _]. discriminate.
  - intros [_ [H | H]]; discriminate.
  - intros [H _]. discriminate.
Qed.

Lemma cleanup_container_stopped_witness :
  calls (fst (cleanup_container container_removal_refused (Some sample_container)
                LoggerNone untouched))
  = [ContainerStop "3f4e" 15; ContainerRemove "3f4e" true]
  /\ snd (cleanup_container container_removal_refused (Some sample_container)
            LoggerNone untouched)
     = Raises (api_error "removal in progress").
Proof.
  destruct (cleanup_container_stopped container_removal_refused sample_container
              LoggerNone untouched (api_error "removal in progress") eq_refl)
    as [Hcalls Hraises].
  split; [exact Hcalls|].
  apply Hraises. split; [reflexivity | left; reflexivity].
Defined.

(** X8: [cleanup_container] sends a signal only after a failed stop, only
    [SIGKILL], and only to a positive process id that the engine reported
    as the ["Pid"] of the container's ["State"]: it never signals
    process 0 or a negative id. *)
Theorem cleanup_container_kill_safe (env : environment) (container : Container)
    (logger : logger_arg) (w : world) (made : list call) (pid sig : Z) :
  let stop := ContainerStop (id container) 15 in
  calls (fst (cleanup_container env (Some container) logger w)) = calls w ++ made ->
  In (OsKill pid sig) made ->
  sig = SIGKILL /\ (0 < pid)%Z
  /\ (exists e, fails env (calls w) stop = Some e)
  /\ (exists state,
        container_info env (calls w ++ [stop]) (id container) !! "State"
        = Some state
        /\ state !! "Pid" = Some pid).
Proof.
  intros stop. subst stop. revert made.
  assert (forall (g : gmap string Z) made,
            (0 <? default 0 (g !! "Pid"))%Z = true ->
            In (OsKill pid sig) made ->
            (forall c, In c made ->
               c = OsKill (default 0%Z (g !! "Pid")) SIGKILL
               \/ (forall p s, c <> OsKill p s)) ->
            sig = SIGKILL /\ (0 < pid)%Z /\ g !! "Pid" = Some pid) as Hkill.
  { intros g made Hpos Hin Hall.
    destruct (Hall _ Hin) as [[= -> ->] | Hno]; [|exfalso; eapply Hno; reflexivity].
    apply Z.ltb_lt in Hpos. split; [reflexivity|]. split; [exact Hpos|].
    destruct (g !! "Pid") as [p|]; simpl in *; [reflexivity | lia]. }
  assert (forall made, In (OsKill pid sig) made ->
            (forall c, In c made -> forall p s, c <> OsKill p s) -> False) as Hnone.
  { intros made Hin Hall. eapply Hall; [exact Hin | reflexivity]. }
  destruct logger as [| |l]; run_cleanup; intros made Hmade Hin;
    repeat rewrite <- app_assoc in Hmade; simpl in Hmade;
    apply app_inv_head in Hmade; subst made;
    try (exfalso; apply (Hnone _ Hin); simpl;
         intros c Hc p s; intuition (subst; discriminate));
    match goal with
    | Hpos : (0 <? default 0%Z (?g !! "Pid"))%Z = true |- _ =>
        destruct (Hkill g _ Hpos Hin) as [Hs [Hp Hg]];
        [ simpl; intros c Hc;
          repeat (destruct Hc as [<- | Hc];
                  [first [left; reflexivity | right; intros p s; discriminate]|]);
          destruct Hc
        | split; [exact Hs|]; split; [exact Hp|];
          split; [eexists; reflexivity|];
          eexists; split; [reflexivity | exact Hg] ]
    end.
Qed.

Lemma cleanup_container_kill_safe_witness :
  SIGKILL = SIGKILL /\ (0 < 4242)%Z
  /\ (exists e, fails stop_refused (calls untouched)
                  (ContainerStop (id sample_container) 15) = Some e)
  /\ (exists state,
        container_info stop_refused
          (calls untouched ++ [ContainerStop (id sample_container) 15])
          (id sample_container) !! "State" = Some state
        /\ state !! "Pid" = Some 4242%Z).
Proof.
  apply (cleanup_container_kill_safe stop_refused sample_container LoggerQuiet
           untouched
           [ContainerStop "3f4e" 15; InspectContainer "3f4e"; OsKill 4242 9;
            ContainerRemove "3f4e" true]).
  - reflexivity.
  - simpl. auto.
Defined.

(** X9: after a failed stop, when the engine's report of the container
    has no ["State"], the lookup raises [KeyError] and counts as a failed
    kill: with [None] or ["quiet"] it is raised and the removal is
    skipped. When the state has no ["Pid"], or one that is zero or
    negative, no signal is sent and the container is still removed. *)
Theorem cleanup_container_no_process (env : environment) (container : Container)
    (logger : logger_arg) (w : world) (e : exn) :
  let stop := ContainerStop (id container) 15 in
  let inspect := InspectContainer (id container) in
  let remove := ContainerRemove (id container) true in
  let report := container_info env (calls w ++ [stop]) (id container) in
  fails env (calls w) stop = Some e ->
  fails env (calls w ++ [stop]) inspect = None ->
  (report !! "State" = None ->
   logger = LoggerNone \/ logger = LoggerQuiet ->
   snd (cleanup_container env (Some container) logger w)
   = Raises (KeyError "State")
   /\ calls (fst (cleanup_container env (Some container) logger w))
      = calls w ++ [stop; inspect])
  /\ (forall state,
        report !! "State" = Some state ->
        (default 0 (state !! "Pid") <= 0)%Z ->
        calls (fst (cleanup_container env (Some container) logger w))
        = calls w ++ [stop; inspect; remove]).
Proof.
  intros stop inspect remove report Hstop Hinspect.
  subst stop inspect remove report. split.
  - intros Hstate [-> | ->];
      unfold cleanup_container, mbind, M_bind; run_world;
      rewrite Hstop; simpl; rewrite Hinspect; simpl; rewrite Hstate; simpl;
      rewrite <- app_assoc; split; reflexivity.
  - intros state Hstate Hpid. apply Z.leb_le in Hpid.
    rewrite Z.leb_antisym in Hpid. apply negb_true_iff in Hpid.
    destruct logger as [| |l];
      unfold cleanup_container, mbind, M_bind; run_world;
      rewrite Hstop; simpl; rewrite Hinspect; simpl; rewrite Hstate; simpl;
      rewrite Hpid; simpl; split_cases;
      repeat rewrite <- app_assoc; reflexivity.
Qed.

Lemma cleanup_container_no_process_witness :
  (snd (cleanup_container stop_refused_no_state (Some sample_container)
          LoggerNone untouched)
   = Raises (KeyError "State")
   /\ calls (fst (cleanup_container stop_refused_no_state (Some sample_container)
                    LoggerNone untouched))
      = [ContainerStop "3f4e" 15; InspectContainer "3f4e"])
  /\ calls (fst (cleanup_container stop_refused_no_pid (Some sample_container)
                   LoggerNone untouched))
     = [ContainerStop "3f4e" 15; InspectContainer "3f4e";
        ContainerRemove "3f4e" true].
Proof.
  split.
  - apply (proj1 (cleanup_container_no_process stop_refused_no_state
                    sample_container LoggerNone untouched
                    (api_error "cannot stop container") eq_refl eq_refl));
      [reflexivity | left; reflexivity].
  - apply (proj2 (cleanup_container_no_process stop_refused_no_pid
                    sample_container LoggerNone untouched
                    (api_error "cannot stop container") eq_refl eq_refl)
             {["Status" := 0%Z]});
      [reflexivity | vm_compute; discriminate].
Defined.

(** ** list_images and clean_images *)

(** One round of the loop: an image that is not selected is skipped; a
    removal that goes through is counted; one that fails is reported on
    the console and not counted. *)
Lemma clean_image_step (env : environment) (cache : string) (clean : bool)
    (prior_images : gset string) (image_name : string) (removed : nat)
    (w : world) :
  clean_image env cache clean prior_images image_name removed w
  = if should_remove image_name cache clean prior_images then
      match fails env (calls w) (removal_of image_name) with
      | None =>
          (World (calls w ++ [removal_of image_name]) (output w),
           Returns (S removed))
      | Some e =>
          (World (calls w ++ [removal_of image_name])
                 (output w ++ [Printed ("Error removing image " +:+ image_name
                                        +:+ ": " +:+ exn_msg e)]),
           Returns removed)
      end
    else (w, Returns removed).
Proof.
  unfold clean_image, removal_of.
  destruct (should_remove image_name cache clean prior_images); [|reflexivity].
  unfold try_except, mbind, M_bind.
  destruct (fails env (calls w) (ImagesRemove image_name true)) as [e|] eqn:H.
  - rewrite (cleanup_image_failure_quiet _ _ _ _ H). reflexivity.
  - rewrite (cleanup_image_success_quiet _ _ _ H). reflexivity.
Qed.

(** The loop: one removal call for each selected image, in the order of
    the iteration; each removal that fails is reported by its own line,
    the others are counted. *)
Lemma clean_loop_spec (env : environment) (cache : string) (clean : bool)
    (prior_images : gset string) (images : list string) :
  forall (removed : nat) (w : world),
    let names :=
      List.filter (fun n => should_remove n cache clean prior_images) images in
    let results := removal_results env (calls w) names in
    clean_loop env cache clean prior_images images removed w
    = (World (calls w ++ map removal_of names)
             (output w ++ error_lines results),
       Returns (removed + removed_count results)).
Proof.
  induction images as [|n images IH]; intros removed w; simpl.
  - rewrite !app_nil_r, Nat.add_0_r. destruct w. reflexivity.
  - unfold mbind, M_bind. rewrite clean_image_step.
    destruct (should_remove n cache clean prior_images); simpl.
    + destruct (fails env (calls w) (removal_of n)) as [e|]; simpl;
        rewrite IH; simpl; rewrite <- !app_assoc; simpl;
        rewrite ?Nat.add_succ_r; reflexivity.
    + apply IH.
Qed.

(** The whole of [clean_images]: when the listing fails, and when it goes
    through. *)
Lemma clean_images_listing_fails (env : environment) (order : set_iteration)
    (images : list (list string)) (prior_images : gset string)
    (cache : string) (clean : bool) (w : world) (e : exn) :
  fails env (calls w) (ImagesList true) = Some e ->
  clean_images env order images prior_images cache clean w
  = (World (calls w ++ [ImagesList true]) (output w), Raises e).
Proof.
  intros H. unfold clean_images, list_images, perform, mbind, M_bind.
  rewrite H. reflexivity.
Qed.

Lemma clean_images_run (env : environment) (order : set_iteration)
    (images : list (list string)) (prior_images : gset string)
    (cache : string) (clean : bool) (w : world) :
  fails env (calls w) (ImagesList true) = None ->
  let names := selected order images prior_images cache clean in
  let results := removal_results env (calls w ++ [ImagesList true]) names in
  clean_images env order images prior_images cache clean w
  = (World (calls w ++ ImagesList true :: map removal_of names)
           (output w ++ [Printed "Cleaning cached images..."]
            ++ error_lines results
            ++ [Printed ("Removed " +:+ pretty (removed_count results)
                         +:+ " images.")]),
     Returns tt).
Proof.
  intros H names results. subst names results. unfold selected.
  unfold clean_images, list_images, perform, print, mbind, M_bind, mret, M_ret.
  rewrite H. simpl. rewrite clean_loop_spec. simpl.
  rewrite <- !app_assoc. reflexivity.
Qed.

(** The names the loop goes through are the tags of the listed images,
    each once. *)
Lemma iterate_tags (order : set_iteration) (images : list (list string)) :
  NoDup (iterate order (list_to_set (concat images)))
  /\ forall name,
       In name (iterate order (list_to_set (concat images)))
       <-> tagged images name.
Proof.
  pose proof (iterate_perm order (list_to_set (concat images))) as Hperm.
  split.
  - rewrite Hperm. apply NoDup_elements.
  - intros name. rewrite <- list_elem_of_In, Hperm, elem_of_elements,
      elem_of_list_to_set, list_elem_of_In, in_concat.
    unfold tagged. reflexivity.
Qed.

Lemma selected_removals (cache : string) (clean : bool)
    (prior_images : gset string) (names : list string) :
  NoDup names ->
  NoDup (map removal_of
           (List.filter (fun n => should_remove n cache clean prior_images) names))
  /\ forall c,
       In c (map removal_of
               (List.filter (fun n => should_remove n cache clean prior_images)
                  names))
       <-> exists n, c = removal_of n /\ In n names
                     /\ should_remove n cache clean prior_images = true.
Proof.
  intros Hnodup. split.
  - induction Hnodup as [|n names Hn Hnodup IH]; simpl; [constructor|].
    destruct (should_remove n cache clean prior_images); [|exact IH].
    simpl. constructor; [|exact IH].
    rewrite list_elem_of_In, in_map_iff. intros [m [[= <-] Hm]].
    apply filter_In in Hm as [Hm _]. apply Hn, list_elem_of_In, Hm.
  - intros c. rewrite in_map_iff. split.
    + intros [n [<- Hn]]. apply filter_In in Hn as [Hn Hs]. eauto.
    + intros [n [-> [Hn Hs]]]. exists n. split; [reflexivity|].
      apply filter_In. auto.
Qed.

Lemma selected_none (cache : string) (clean : bool)
    (prior_images : gset string) (names : list string) :
  cache <> "none" -> cache <> "base" -> cache <> "env" ->
  List.filter (fun n => should_remove n cache clean prior_images) names = [].
Proof.
  intros Hnone Hbase Henv. induction names as [|n names IH]; [reflexivity|].
  simpl. destruct (should_remove n cache clean prior_images) eqn:H; [|exact IH].
  apply should_remove_true in H as [Ht _]. unfold tier_eligible in Ht. tauto.
Qed.

(** Each removal is counted or reported, never both. *)
Lemma results_accounted (results : list (string * option exn)) :
  removed_count results + length (error_lines results) = length results.
Proof.
  induction results as [|[n [e|]] results IH]; simpl; lia.
Qed.

Lemma removal_results_length (env : environment) (names : list string) :
  forall history, length (removal_results env history names) = length names.
Proof.
  induction names as [|n names IH]; intros history; simpl; [reflexivity|].
  rewrite IH. reflexivity.
Qed.

(** X10: [clean_images] does not abort on a failed removal: when the
    listing of the images goes through it returns normally, whatever the
    removals do. When the listing raises, that error is raised before
    anything is printed or removed: the listing is the only call made. *)
Theorem clean_images_never_aborts (env : environment) (order : set_iteration)
    (images : list (list string)) (prior_images : gset string)
    (cache : string) (clean : bool) (w : world) :
  (fails env (calls w) (ImagesList true) = None ->
   snd (clean_images env order images prior_images cache clean w) = Returns tt)
  /\ (forall e, fails env (calls w) (ImagesList true) = Some e ->
        clean_images env order images prior_images cache clean w
        = (World (calls w ++ [ImagesList true]) (output w), Raises e)).
Proof.
  split.
  - intros H. rewrite (clean_images_run _ _ _ _ _ _ _ H). reflexivity.
  - intros e H. apply clean_images_listing_fails. exact H.
Qed.

Lemma clean_images_never_aborts_witness :
  snd (clean_images removal_refused elements_order sample_listing ∅ "none" false
         untouched)
  = Returns tt
  /\ clean_images listing_refused elements_order sample_listing ∅ "none" false
       untouched
     = (World [ImagesList true] [], Raises (api_error "engine down")).
Proof.
  split.
  - apply (proj1 (clean_images_never_aborts removal_refused elements_order
                    sample_listing ∅ "none" false untouched)).
    reflexivity.
  - apply (proj2 (clean_images_never_aborts listing_refused elements_order
                    sample_listing ∅ "none" false untouched)).
    reflexivity.
Defined.

(** X11: when the listing goes through, the calls [clean_images] makes
    are the listing of the images, first, and then forced removals, one
    for each tag of a listed image that [should_remove] selects, and no
    other: a tag shared by several images is removed once, an untagged
    image is not touched. *)
Theorem clean_images_removals (env : environment) (order : set_iteration)
    (images : list (list string)) (prior_images : gset string)
    (cache : string) (clean : bool) (w : world) :
  fails env (calls w) (ImagesList true) = None ->
  exists made : list call,
    calls (fst (clean_images env order images prior_images cache clean w))
    = calls w ++ ImagesList true :: made
    /\ NoDup made
    /\ forall c,
         In c made
         <-> exists name,
               c = ImagesRemove name true
               /\ tagged images name
               /\ should_remove name cache clean prior_images = true.
Proof.
  intros H. rewrite (clean_images_run _ _ _ _ _ _ _ H). simpl.
  destruct (iterate_tags order images) as [Hnodup Htags].
  destruct (selected_removals cache clean prior_images _ Hnodup) as [Hnd Hin].
  eexists. split; [reflexivity|]. split; [exact Hnd|].
  intros c. unfold selected. rewrite Hin. unfold removal_of.
  split; intros [n [Hc [Hn Hs]]]; exists n; (split; [exact Hc|]);
    (split; [apply Htags; exact Hn | exact Hs]).
Qed.

Lemma clean_images_removals_witness :
  exists made : list call,
    calls (fst (clean_images all_succeed elements_order sample_listing
                  {["sweb.base.x:latest"]} "env" false untouched))
    = calls untouched ++ ImagesList true :: made
    /\ NoDup made
    /\ forall c,
         In c made
         <-> exists name,
               c = ImagesRemove name true
               /\ tagged sample_listing name
               /\ should_remove name "env" false {["sweb.base.x:latest"]} = true.
Proof.
  apply (clean_images_removals all_succeed elements_order sample_listing
           {["sweb.base.x:latest"]} "env" false untouched).
  reflexivity.
Defined.

(** X12: every removal [clean_images] attempts is accounted for on the
    console: after the opening line comes one error line for each removal
    that failed, in the order of the removals, with the name of the image
    and the text of the error, and the closing line gives the number of
    removals that went through. A removal is counted or reported, never
    both: the two numbers add up to the number of removal calls. *)
Theorem clean_images_accounting (env : environment) (order : set_iteration)
    (images : list (list string)) (prior_images : gset string)
    (cache : string) (clean : bool) (w : world) :
  fails env (calls w) (ImagesList true) = None ->
  let names := selected order images prior_images cache clean in
  let results := removal_results env (calls w ++ [ImagesList true]) names in
  let w' := fst (clean_images env order images prior_images cache clean w) in
  calls w' = calls w ++ ImagesList true :: map removal_of names
  /\ output w'
     = output w ++ [Printed "Cleaning cached images..."]
       ++ error_lines results
       ++ [Printed ("Removed " +:+ pretty (removed_count results) +:+ " images.")]
  /\ removed_count results + length (error_lines results) = length names.
Proof.
  intros H names results w'. subst names results w'.
  rewrite (clean_images_run _ _ _ _ _ _ _ H). simpl.
  split; [reflexivity|]. split; [reflexivity|].
  rewrite results_accounted. apply removal_results_length.
Qed.

Lemma clean_images_accounting_witness :
  output (fst (clean_images base_removal_refused elements_order sample_listing
                 ∅ "none" false untouched))
  = [Printed "Cleaning cached images...";
     Printed "Error removing image sweb.base.x:latest: image is in use";
     Printed "Removed 2 images."].
Proof.
  destruct (clean_images_accounting base_removal_refused elements_order
              sample_listing ∅ "none" false untouched eq_refl)
    as [_ [Hout _]].
  rewrite Hout. vm_compute. reflexivity.
Defined.

(** X13: with [clean] off, [clean_images] makes no removal call for an
    image that existed before the run; and under a cache level other than
    "none", "base" and "env" the listing of the images is the only call
    it makes. *)
Theorem clean_images_keeps (env : environment) (order : set_iteration)
    (images : list (list string)) (prior_images : gset string)
    (cache : string) (clean : bool) (w : world) :
  let w' := fst (clean_images env order images prior_images cache clean w) in
  (clean = false ->
   forall name force made,
     name ∈ prior_images ->
     calls w' = calls w ++ made ->
     ~ In (ImagesRemove name force) made)
  /\ (cache <> "none" -> cache <> "base" -> cache <> "env" ->
      calls w' = calls w ++ [ImagesList true]).
Proof.
  intros w'. subst w'.
  destruct (fails env (calls w) (ImagesList true)) as [e|] eqn:Hlist.
  - rewrite (clean_images_listing_fails _ _ _ _ _ _ _ _ Hlist). simpl. split.
    + intros _ name force made _ Hmade Hc.
      apply app_inv_head in Hmade. subst made.
      destruct Hc as [Hc | []]. discriminate.
    + reflexivity.
  - rewrite (clean_images_run _ _ _ _ _ _ _ Hlist). simpl.
    destruct (iterate_tags order images) as [Hnodup _].
    destruct (selected_removals cache clean prior_images _ Hnodup) as [_ Hin].
    unfold selected. split.
    + intros -> name force made Hprior Hmade Hc.
      apply app_inv_head in Hmade. subst made.
      destruct Hc as [Hc | Hc]; [discriminate|].
      apply Hin in Hc as [n [[= <- _] [_ Hs]]].
      destruct (should_remove name cache false prior_images) eqn:H;
        [|discriminate].
      apply should_remove_true in H as [_ [Hclean | Hnew]];
        [discriminate | contradiction].
    + intros Hnone Hbase Henv.
      rewrite (selected_none cache clean prior_images _ Hnone Hbase Henv).
      reflexivity.
Qed.

Lemma clean_images_keeps_witness :
  ~ In (ImagesRemove "sweb.base.x:latest" true)
      [ImagesList true; ImagesRemove "sweb.eval.a:v1" true;
       ImagesRemove "sweb.eval.a:latest" true]
  /\ calls (fst (clean_images all_succeed elements_order sample_listing ∅ "full"
                   true untouched))
     = calls untouched ++ [ImagesList true].
Proof.
  split.
  - apply (proj1 (clean_images_keeps all_succeed elements_order sample_listing
                    {["sweb.base.x:latest"]} "none" false untouched)
             eq_refl "sweb.base.x:latest" true).
    + apply elem_of_singleton. reflexivity.
    + vm_compute. reflexivity.
  - apply (proj2 (clean_images_keeps all_succeed elements_order sample_listing
                    ∅ "full" true untouched));
      discriminate.
Defined.

(** ** copy_to_container: the destinations it takes and the calls it makes *)

Lemma head_upto_sep_empty (p : string) :
  head_upto_sep p = "" <-> ~ has_sep p.
Proof.
  unfold has_sep. induction p as [|c p IH];
    cbn [head_upto_sep list_ascii_of_string In].
  - split; [intros _ [] | reflexivity].
  - destruct (head_upto_sep p) as [|h hs] eqn:Hhead.
    + destruct (Ascii.eqb_spec c "/") as [-> | Hc].
      * split; [discriminate | intros H; exfalso; apply H; left; reflexivity].
      * split; [|reflexivity].
        intros _ [Heq | Hin]; [congruence|]. apply IH; [reflexivity | exact Hin].
    + split; [discriminate|]. intros H. exfalso.
      assert (~ In "/"%char (list_ascii_of_string p)) as Hp by tauto.
      apply IH in Hp. discriminate.
Qed.

Lemma rstrip_sep_empty (s : string) :
  rstrip_sep s = "" -> all_sep s = true.
Proof.
  induction s as [|c s IH]; simpl; [reflexivity|].
  destruct (rstrip_sep s) as [|r rs]; [|discriminate].
  destruct (Ascii.eqb c "/"); [intros _; apply IH; reflexivity | discriminate].
Qed.

(** The parent directory is empty exactly for a path without ["/"]. *)
Lemma dirname_empty_iff (p : string) : dirname p = "" <-> ~ has_sep p.
Proof.
  rewrite <- head_upto_sep_empty. unfold dirname.
  destruct (head_upto_sep p) as [|h hs] eqn:Hhead; [tauto|].
  split; [|discriminate].
  change (String.eqb (String h hs) "") with false. cbn [negb andb].
  destruct (all_sep (String h hs)) eqn:Hall; cbn [negb]; [discriminate|].
  intros H. apply rstrip_sep_empty in H. congruence.
Qed.

Ltac earlier_succeeded :=
  let i := fresh "i" in
  let c := fresh "c" in
  let Hi := fresh "Hi" in
  let Hc := fresh "Hc" in
  intros i c Hi Hc;
  repeat (destruct i as [|i];
          [simpl in Hc; injection Hc as <-; simpl; rewrite ?app_nil_r;
           assumption|]);
  first [exfalso; lia | discriminate].

Ltac copy_stops_at n m :=
  exists n; split; [lia|];
  split; [reflexivity|];
  exists m; eexists;
  split; [reflexivity|];
  split; [reflexivity|];
  split; [simpl; rewrite ?app_nil_r; eassumption|];
  split; [earlier_succeeded|];
  intros Hm; first [ lia | simpl; intuition discriminate ].

(** The calls [copy_to_container] makes once the destination is accepted:
    the steps up to the first one that fails. *)
Lemma copy_to_container_run (env : environment) (pl : pathlib)
    (container : Container) (src dst tar_path : string) (w : world) :
  String.eqb (dirname dst) "" = false ->
  with_suffix pl src ".tar" = Returns tar_path ->
  let data :=
    read_bytes env (calls w ++ [TarOpen tar_path; TarAdd src (path_name pl src)])
      tar_path in
  let steps := copy_steps pl container src dst tar_path data in
  let run := copy_to_container env pl container src dst w in
  output (fst run) = output w
  /\ exists n,
       n <= 8
       /\ calls (fst run) = calls w ++ take n steps
       /\ match snd run with
          | Returns _ =>
              n = 8
              /\ (forall i c, i < 8 -> steps !! i = Some c ->
                    fails env (calls w ++ take i steps) c = None)
          | Raises e =>
              exists m c,
                n = S m
                /\ steps !! m = Some c
                /\ fails env (calls w ++ take m steps) c = Some e
                /\ (forall i c', i < m -> steps !! i = Some c' ->
                      fails env (calls w ++ take i steps) c' = None)
                /\ (m < 6 -> ~ In (Unlink tar_path) (take n steps))
          end.
Proof.
  intros Hdir Htar data steps run. subst data steps run.
  unfold copy_to_container, copy_steps. rewrite Hdir.
  unfold mbind, M_bind, lift, perform, read_file. rewrite Htar. simpl.
  split_cases; repeat rewrite <- app_assoc in *; simpl in *;
    (split; [reflexivity|]).
  - copy_stops_at 1 0.
  - copy_stops_at 2 1.
  - copy_stops_at 3 2.
  - copy_stops_at 4 3.
  - copy_stops_at 5 4.
  - copy_stops_at 6 5.
  - copy_stops_at 7 6.
  - copy_stops_at 8 7.
  - exists 8. split; [lia|]. split; [reflexivity|]. split; [reflexivity|].
    earlier_succeeded.
Qed.

Lemma has_sep_dirname (dst : string) :
  has_sep dst -> String.eqb (dirname dst) "" = false.
Proof.
  intros Hsep. apply String.eqb_neq. intros H.
  apply dirname_empty_iff in H. contradiction.
Qed.

(** X14: [copy_to_container] takes a destination exactly when it has a
    ["/"] in it: for a bare name it raises [ValueError] with nothing
    done, for any other path it goes on to create the archive. *)
Theorem copy_to_container_guard (env : environment) (pl : pathlib)
    (container : Container) (src dst : string) (w : world) :
  (~ has_sep dst ->
   copy_to_container env pl container src dst w
   = (w, Raises (ValueError
        ("Destination path parent directory cannot be empty!, dst: " +:+ dst))))
  /\ (has_sep dst ->
      forall tar_path, with_suffix pl src ".tar" = Returns tar_path ->
      exists rest,
        calls (fst (copy_to_container env pl container src dst w))
        = calls w ++ TarOpen tar_path :: rest).
Proof.
  split.
  - intros Hsep. apply dirname_empty_iff in Hsep.
    unfold copy_to_container. rewrite Hsep. reflexivity.
  - intros Hsep tar_path Htar.
    destruct (copy_to_container_run env pl container src dst tar_path w
                (has_sep_dirname dst Hsep) Htar)
      as [_ [n [_ [Hcalls Hres]]]].
    rewrite Hcalls.
    destruct (snd (copy_to_container env pl container src dst w)).
    + destruct Hres as [-> _]. eexists. reflexivity.
    + destruct Hres as [m [c [-> _]]]. eexists. reflexivity.
Qed.

Lemma copy_to_container_guard_witness :
  copy_to_container all_succeed plain_pathlib sample_container "/tmp/patch"
    "patch" untouched
  = (untouched, Raises (ValueError
       "Destination path parent directory cannot be empty!, dst: patch"))
  /\ exists rest,
       calls (fst (copy_to_container all_succeed plain_pathlib sample_container
                     "/tmp/patch" "/testbed/patch" untouched))
       = calls untouched ++ TarOpen "/tmp/patch.tar" :: rest.
Proof.
  split.
  - apply (proj1 (copy_to_container_guard all_succeed plain_pathlib
                    sample_container "/tmp/patch" "patch" untouched)).
    unfold has_sep. simpl. intuition discriminate.
  - apply (proj2 (copy_to_container_guard all_succeed plain_pathlib
                    sample_container "/tmp/patch" "/testbed/patch" untouched)).
    + left. reflexivity.
    + reflexivity.
Defined.

(** X15: once the destination is accepted, [copy_to_container] makes its
    eight calls in order (create the archive, add the file, read it back,
    make the directory, upload, extract, unlink the archive, remove the
    copy in the container) and stops at the first that fails: every call
    before it went through, it raises the error of that call, and it
    makes no later one. It returns normally exactly after all eight went
    through; and when a call before the unlink fails, the local archive
    has not been unlinked. It writes no output. *)
Theorem copy_to_container_steps (env : environment) (pl : pathlib)
    (container : Container) (src dst tar_path : string) (w : world) :
  has_sep dst ->
  with_suffix pl src ".tar" = Returns tar_path ->
  let data :=
    read_bytes env (calls w ++ [TarOpen tar_path; TarAdd src (path_name pl src)])
      tar_path in
  let steps := copy_steps pl container src dst tar_path data in
  let run := copy_to_container env pl container src dst w in
  output (fst run) = output w
  /\ exists n,
       n <= 8
       /\ calls (fst run) = calls w ++ take n steps
       /\ match snd run with
          | Returns _ =>
              n = 8
              /\ (forall i c, i < 8 -> steps !! i = Some c ->
                    fails env (calls w ++ take i steps) c = None)
          | Raises e =>
              exists m c,
                n = S m
                /\ steps !! m = Some c
                /\ fails env (calls w ++ take m steps) c = Some e
                /\ (forall i c', i < m -> steps !! i = Some c' ->
                      fails env (calls w ++ take i steps) c' = None)
                /\ (m < 6 -> ~ In (Unlink tar_path) (take n steps))
          end.
Proof.
  intros Hsep Htar.
  apply copy_to_container_run; [apply has_sep_dirname; exact Hsep | exact Htar].
Qed.

Lemma copy_to_container_steps_witness :
  output (fst (copy_to_container tar_add_refused plain_pathlib sample_container
                 "/tmp/patch" "/testbed/patch" untouched))
  = output untouched
  /\ exists n,
       n <= 8
       /\ calls (fst (copy_to_container tar_add_refused plain_pathlib
                        sample_container "/tmp/patch" "/testbed/patch" untouched))
          = calls untouched
            ++ take n (copy_steps plain_pathlib sample_container "/tmp/patch"
                         "/testbed/patch" "/tmp/patch.tar" "").
Proof.
  destruct (copy_to_container_steps tar_add_refused plain_pathlib
              sample_container "/tmp/patch" "/testbed/patch" "/tmp/patch.tar"
              untouched)
    as [Hout [n [Hn [Hcalls _]]]].
  - left. reflexivity.
  - reflexivity.
  - split; [exact Hout|]. exists n. split; [exact Hn | exact Hcalls].
Defined.

(** A failed addition to the archive ends the copy: nothing is sent to
    the container. The archive is left behind when the upload is
    refused. *)
Example copy_to_container_refused :
  copy_to_container tar_add_refused plain_pathlib sample_container
    "/tmp/patch" "/testbed/patch" untouched
  = (World [TarOpen "/tmp/patch.tar"; TarAdd "/tmp/patch" "patch"] [],
     Raises (Exn "FileNotFoundError" "No such file or directory"))
  /\ copy_to_container upload_refused plain_pathlib sample_container
       "/tmp/patch" "/testbed/patch" untouched
     = (World [TarOpen "/tmp/patch.tar"; TarAdd "/tmp/patch" "patch";
               FileRead "/tmp/patch.tar"; ExecRun "3f4e" "mkdir -p /testbed";
               PutArchive "3f4e" "/testbed" "tar"] [],
        Raises (api_error "no space left")).
Proof. split; reflexivity. Qed.

(** ** write_to_container: the lines of the command *)

Lemma split_lines_cons (s : string) :
  exists l ls, split_lines s = l :: ls.
Proof.
  destruct s as [|c s]; simpl; [eauto|].
  destruct (Ascii.eqb c (ascii_of_nat 10)); [eauto|].
  destruct (split_lines s); eauto.
Qed.

(** The lines of two texts joined by a line feed are the lines of the
    first followed by those of the second. *)
Lemma split_lines_join (a b : string) :
  split_lines (a +:+ LF +:+ b) = split_lines a ++ split_lines b.
Proof.
  induction a as [|c a IH].
  - change ("" +:+ LF +:+ b) with (String (ascii_of_nat 10) b).
    simpl. reflexivity.
  - rewrite append_cons. cbn [split_lines].
    destruct (Ascii.eqb c (ascii_of_nat 10)).
    + rewrite IH. reflexivity.
    + rewrite IH. destruct (split_lines_cons a) as [l [ls ->]]. reflexivity.
Qed.

Lemma split_lines_single (s : string) :
  single_line s -> split_lines s = [s].
Proof.
  unfold single_line. induction s as [|c s IH]; [reflexivity|].
  cbn [split_lines list_ascii_of_string In]. intros H.
  destruct (Ascii.eqb_spec c (ascii_of_nat 10)) as [-> | Hc];
    [exfalso; apply H; left; reflexivity|].
  rewrite IH by tauto. reflexivity.
Qed.

(** X16: [write_to_container] makes one call, an exec of a command whose
    lines are a header, then the lines of [data] unchanged, then the
    delimiter: so the delimiter line closes the text exactly when no line
    of [data] is the delimiter itself. The destination is a single
    line. *)
Theorem write_to_container_lines (env : environment) (container : Container)
    (data dst : string) (w : world) :
  single_line dst ->
  let header := "cat <<'" +:+ HEREDOC_DELIMITER +:+ "' > " +:+ dst in
  calls (fst (write_to_container env container data dst w))
  = calls w ++ [ExecRun (id container) (heredoc_command data dst)]
  /\ split_lines (heredoc_command data dst)
     = header :: split_lines data ++ [HEREDOC_DELIMITER]
  /\ header <> HEREDOC_DELIMITER
  /\ (~ In HEREDOC_DELIMITER (split_lines data)
      <-> forall i, split_lines (heredoc_command data dst) !! i
                    = Some HEREDOC_DELIMITER ->
                    i = S (length (split_lines data))).
Proof.
  intros Hdst header.
  assert (split_lines (heredoc_command data dst)
          = header :: split_lines data ++ [HEREDOC_DELIMITER]) as Hlines.
  { unfold heredoc_command.
    replace ("cat <<'" +:+ HEREDOC_DELIMITER +:+ "' > " +:+ dst +:+ LF
             +:+ data +:+ LF +:+ HEREDOC_DELIMITER)
      with (header +:+ LF +:+ (data +:+ LF +:+ HEREDOC_DELIMITER))
      by (subst header; rewrite !append_assoc; reflexivity).
    rewrite !split_lines_join.
    rewrite (split_lines_single header).
    - reflexivity.
    - subst header. unfold single_line in *. simpl. intuition discriminate. }
  assert (header <> HEREDOC_DELIMITER) as Hheader
    by (subst header; discriminate).
  split; [|split; [exact Hlines | split; [exact Hheader|]]].
  - unfold write_to_container, perform.
    destruct (fails env (calls w) _); reflexivity.
  - rewrite Hlines. split.
    + intros Hnot [|i] Hi; simpl in Hi; [congruence|]. f_equal.
      destruct (decide (i < length (split_lines data))) as [Hlt | Hge].
      * rewrite lookup_app_l in Hi by exact Hlt.
        exfalso. apply Hnot. apply list_elem_of_In.
        eapply list_elem_of_lookup_2. exact Hi.
      * rewrite lookup_app_r in Hi by lia.
        destruct (i - length (split_lines data)) as [|j] eqn:Hj;
          [lia | discriminate].
    + intros Hall Hin. apply list_elem_of_In, list_elem_of_lookup_1 in Hin
        as [i Hi].
      assert (S i = S (length (split_lines data))) as Heq.
      { apply Hall. simpl. rewrite lookup_app_l; [exact Hi|].
        eapply lookup_lt_Some. exact Hi. }
      apply lookup_lt_Some in Hi. lia.
Qed.

Lemma write_to_container_lines_witness :
  split_lines (heredoc_command ("a" +:+ LF +:+ "b") "/tmp/f")
  = ["cat <<'EOF_1399519320' > /tmp/f"; "a"; "b"; "EOF_1399519320"].
Proof.
  apply (proj1 (proj2 (write_to_container_lines all_succeed sample_container
                         ("a" +:+ LF +:+ "b") "/tmp/f" untouched
                         ltac:(unfold single_line; simpl; intuition discriminate)))).
Defined.

(** ** get_session_id: its one error *)

(** X17: the only error [get_session_id] raises is the [ValueError] about
    the length, and it raises it for an argument that is not a positive
    integer only: the check that no character set is selected never
    fires, and no draw fails. *)
Theorem get_session_id_one_error (random_gen : SystemRandom) (length : pyval)
    (e : exn) :
  get_session_id random_gen length = Raises e ->
  e = ValueError "Length must be a positive integer."
  /\ ~ positive_integer length.
Proof.
  unfold get_session_id.
  destruct (negb (isinstance_int length) || le_zero length) eqn:Hguard.
  - intros [= <-]. split; [reflexivity|].
    intros [n [-> Hn]]. simpl in Hguard. apply Z.leb_le in Hguard. lia.
  - destruct characters_alphanumeric as [Hlen _].
    set (characters := (("" +:+ ascii_uppercase) +:+ ascii_lowercase) +:+ digits)
      in *.
    replace (String.eqb characters "") with false by reflexivity.
    destruct (join_choices_returns random_gen characters (range_len length))
      with (k := 0) as [s [Hs _]]; [rewrite Hlen; lia|].
    rewrite Hs. discriminate.
Qed.

Lemma get_session_id_one_error_witness :
  ValueError "Length must be a positive integer."
  = ValueError "Length must be a positive integer."
  /\ ~ positive_integer (PyInt 0).
Proof.
  apply (get_session_id_one_error counting_random (PyInt 0)
           (ValueError "Length must be a positive integer.")).
  reflexivity.
Defined.

(** ** exec_run_with_timeout: what a returned value means *)

(** X18: a value that [exec_run_with_timeout] returns is the output the
    dispatch returned; and when it returns [None], the dispatch raised
    while the caller was between its test of [exception] and its call of
    [is_alive], so that the exception was recorded too late to be seen. *)
Theorem exec_run_with_timeout_returned (py : threading) (api : exec_api)
    (sched : schedule) (container : Container) (cmd : string) (timeout : Z) :
  let at_test :=
    worker_after api container cmd
      (before_join sched + before_exception_test sched) in
  let result := exec_run_with_timeout py api sched container cmd timeout in
  (forall r, result = Returns (Some r) -> dispatch_returns api container cmd r)
  /\ (result = Returns None ->
      dispatching at_test = true
      /\ exists e, dispatch_raises api container cmd e).
Proof.
  intros at_test result. subst at_test result. unfold exec_run_with_timeout.
  destruct (TIMEOUT_MAX py <? timeout)%Z;
    [split; [intros r H | intros H]; discriminate|].
  set (t := before_join sched + before_exception_test sched).
  set (a := before_is_alive sched). set (z := before_return sched).
  destruct (exception (vars (worker_after api container cmd t))) as [e|] eqn:Hexc;
    [split; [intros r H | intros H]; discriminate|].
  destruct (is_alive (worker_after api container cmd (t + a))) eqn:Halive;
    [split; [intros r H | intros H]; discriminate|].
  pose proof (ended_not_dispatching api container cmd (t + a) Halive) as Hd.
  destruct (worker_settled api container cmd (t + a) z Hd) as [_ [Hv _]].
  rewrite Hv.
  pose proof (worker_consistent api container cmd (t + a)) as Hc.
  unfold consistent, is_alive in Hc, Halive.
  destruct (pc (worker_after api container cmd (t + a))); try discriminate.
  destruct Hc as [[_ [r' [Hres Hr']]] | [Hres [e [He Hraises]]]].
  - rewrite Hres. split; [intros r [= <-]; exact Hr' | discriminate].
  - rewrite Hres. split; [discriminate|]. intros _.
    split; [|exists e; exact Hraises].
    destruct (dispatching (worker_after api container cmd t)) eqn:Hdt;
      [reflexivity|].
    destruct (worker_settled api container cmd t a Hdt) as [_ [Hvt _]].
    rewrite Hvt in He. congruence.
Qed.

Lemma exec_run_with_timeout_returned_witness :
  dispatch_returns api_done sample_container "ls" "done"
  /\ dispatching (worker_after api_broken sample_container "ls"
                    (before_join late_failure
                     + before_exception_test late_failure)) = true.
Proof.
  split.
  - apply (proj1 (exec_run_with_timeout_returned cpython_linux api_done late_finish
                    sample_container "ls" 60)).
    reflexivity.
  - apply (proj2 (exec_run_with_timeout_returned cpython_linux api_broken late_failure
                    sample_container "ls" 60)).
    reflexivity.
Defined.
